(** * Schema validation of leads (main.go)

    A shallow embedding of the validation engine of the product/lead
    service: [validateFieldType], [isValidISODateString] and
    [validateDataAgainstSchema], together with the part of the product and
    lead handlers that decides whether a schema or a lead is stored.

    Go values of type [interface{}] are modelled by the inductive type
    [Value], one constructor per dynamic type the code distinguishes.  A Go
    [map[string]interface{}] is modelled by an association list: lookups
    take the first binding of a key, and the order of the list stands for
    the order in which a [range] loop visits the map.  Go leaves that order
    unspecified, so statements that hold for every list hold for every
    order of iteration.  Values are finite trees, as the values decoded
    from JSON and BSON are. *)

From Stdlib Require Import String Ascii List ZArith Bool Lia QArith Permutation.
Import ListNotations.

Local Open Scope string_scope.
Local Open Scope list_scope.
Local Open Scope Z_scope.

Set Implicit Arguments.

(* ================================================================== *)
(** * Go values *)
(* ================================================================== *)

(** The dynamic types of an [interface{}] that the validator tells apart.
    Integers carry their value, floats their IEEE-754 bit pattern,
    [time.Time] its Unix time in nanoseconds, [primitive.DateTime] its
    milliseconds, [primitive.Timestamp] its two counters.  [VSlice] stands
    for every value whose reflect kind is [Slice], [VOther] for a value of
    any remaining dynamic type (its tag only tells such types apart). *)
#[warnings="-register-all"]
Inductive Value : Type :=
| VNil                                    (* the nil interface *)
| VString (s : string)
| VBool (b : bool)
| VInt (i : Z)
| VInt32 (i : Z)
| VInt64 (i : Z)
| VFloat32 (bits : Z)
| VFloat64 (bits : Z)
| VSlice (elems : list Value)
| VMap (m : list (string * Value))        (* map[string]interface{} *)
| VBsonM (m : list (string * Value))      (* bson.M, a distinct named type *)
| VTime (unixNano : Z)                    (* time.Time *)
| VDateTime (millis : Z)                  (* primitive.DateTime *)
| VTimestamp (t i : Z)                    (* primitive.Timestamp *)
| VOther (tag : nat).

(** [map[string]interface{}] *)
Definition Map : Type := list (string * Value).

(** [v, ok := m[key]] *)
Fixpoint lookup (m : Map) (key : string) : option Value :=
  match m with
  | [] => None
  | (k, v) :: m' => if String.eqb k key then Some v else lookup m' key
  end.

(** [m[key]]: the zero value of [interface{}] when the key is absent. *)
Definition index (m : Map) (key : string) : Value :=
  match lookup m key with
  | Some v => v
  | None => VNil
  end.

(** The keys of a map, in the order of the list. *)
Definition keys (m : Map) : list string := map fst m.

(** Type assertions [v.(T)] in their comma-ok form. *)
Definition assertBool (v : Value) : option bool :=
  match v with VBool b => Some b | _ => None end.

Definition assertString (v : Value) : option string :=
  match v with VString s => Some s | _ => None end.

Definition assertMap (v : Value) : option Map :=
  match v with VMap m => Some m | _ => None end.

Definition assertBsonM (v : Value) : option Map :=
  match v with VBsonM m => Some m | _ => None end.

(** [x, _ := v.(bool)] and [x, _ := v.(string)]: the zero value on failure. *)
Definition boolOrZero (v : Value) : bool :=
  match assertBool v with Some b => b | None => false end.

Definition stringOrZero (v : Value) : string :=
  match assertString v with Some s => s | None => "" end.

(** ** Package reflect *)
Module reflect.

Inductive Kind : Type :=
| Bool | Int | Int32 | Int64 | Float32 | Float64
| Map | Slice | String | Struct | Other.

Definition Kind_eqb (a b : Kind) : bool :=
  match a, b with
  | Bool, Bool | Int, Int | Int32, Int32 | Int64, Int64
  | Float32, Float32 | Float64, Float64 | Map, Map | Slice, Slice
  | String, String | Struct, Struct | Other, Other => true
  | _, _ => false
  end.

(** [reflect.TypeOf(v)], reduced to the kind of the type it returns.
    [TypeOf(nil)] is the nil [Type], on which every method panics: it is
    [None] here. *)
Definition TypeOf (v : Value) : option Kind :=
  match v with
  | VNil => None
  | VString _ => Some String
  | VBool _ => Some Bool
  | VInt _ => Some Int
  | VInt32 _ => Some Int32
  | VInt64 _ => Some Int64
  | VFloat32 _ => Some Float32
  | VFloat64 _ => Some Float64
  | VSlice _ => Some Slice
  | VMap _ => Some Map
  | VBsonM _ => Some Map
  | VTime _ => Some Struct
  | VDateTime _ => Some Int64
  | VTimestamp _ _ => Some Struct
  | VOther _ => Some Other
  end.

End reflect.

(* ================================================================== *)
(** * Results of a call *)
(* ================================================================== *)

(** What a call of a function of result type [error] does: it returns the
    nil error, returns an error with a message, or panics. *)
Inductive outcome : Type :=
| Nil
| Error (msg : string)
| Panic.

(** [fmt.Errorf] with one [%s] or [%v] verb between two literal parts. *)
Definition Errorf1 (before arg after : string) : outcome :=
  Error (before ++ arg ++ after).

(* ================================================================== *)
(** * The Go standard library functions the validator calls *)
(* ================================================================== *)

(** ** strconv.ParseInt(s, 10, 64)

    Only whether the call returns a nil error matters to the validator.  In
    base 10 the input is an optional sign followed by at least one decimal
    digit and nothing else, and the number must fit in 64 bits. *)
Module GoStrconv.

Definition isDigit (c : ascii) : bool :=
  ((48 <=? nat_of_ascii c) && (nat_of_ascii c <=? 57))%nat.

Definition digitVal (c : ascii) : Z := Z.of_nat (nat_of_ascii c) - 48.

(** The digits of [s] read in base 10, [None] at the first other byte. *)
Fixpoint parseDigits (s : string) (acc : Z) : option Z :=
  match s with
  | EmptyString => Some acc
  | String c s' =>
      if isDigit c then parseDigits s' (10 * acc + digitVal c) else None
  end.

Definition ParseUint (s : string) : option Z :=
  match s with
  | EmptyString => None
  | _ => parseDigits s 0
  end.

(** [true] iff [strconv.ParseInt(s, 10, 64)] returns a nil error. *)
Definition ParseInt (s : string) : bool :=
  match s with
  | EmptyString => false
  | String c rest =>
      let neg := Ascii.eqb c "-" in
      let body := if Ascii.eqb c "+" || Ascii.eqb c "-" then rest else s in
      match ParseUint body with
      | None => false
      | Some un => if neg then un <=? 2 ^ 63 else un <? 2 ^ 63
      end
  end.

End GoStrconv.

(** ** time.Parse(layout, value)

    Only whether the call returns a nil error matters to the validator.
    The layout is cut into reference elements ([nextStdChunk]) and the
    value is consumed element by element.  The model covers the reference
    elements of the layouts this program uses: [2006], [01], [02], [15],
    [04], [05], a fraction of nines after a period or comma, and [Z07:00];
    every other byte of a layout is taken literally. *)
Module GoTime.

Import GoStrconv.

Definition RFC3339 : string := "2006-01-02T15:04:05Z07:00".
Definition RFC3339Nano : string := "2006-01-02T15:04:05.999999999Z07:00".

Inductive std : Type :=
| stdLongYear | stdZeroMonth | stdZeroDay | stdHour
| stdZeroMinute | stdZeroSecond | stdFracSecond9 | stdISO8601ColonTZ.

Definition commaOrPeriod (c : ascii) : bool :=
  Ascii.eqb c "." || Ascii.eqb c ",".

(** The run of nines at the head of [s], and what follows it. *)
Fixpoint nines (s : string) : nat * string :=
  match s with
  | String c s' =>
      if Ascii.eqb c "9" then let (n, r) := nines s' in (S n, r) else (O, s)
  | EmptyString => (O, s)
  end.

Definition headIsDigit (s : string) : bool :=
  match s with String c _ => isDigit c | EmptyString => false end.

(** The reference element that starts at the head of [layout], with its
    length in bytes. *)
Definition stdAt (layout : string) : option (std * nat) :=
  if prefix "2006" layout then Some (stdLongYear, 4%nat)
  else if prefix "01" layout then Some (stdZeroMonth, 2%nat)
  else if prefix "02" layout then Some (stdZeroDay, 2%nat)
  else if prefix "04" layout then Some (stdZeroMinute, 2%nat)
  else if prefix "05" layout then Some (stdZeroSecond, 2%nat)
  else if prefix "15" layout then Some (stdHour, 2%nat)
  else if prefix "Z07:00" layout then Some (stdISO8601ColonTZ, 6%nat)
  else match layout with
       | String c rest =>
           if commaOrPeriod c && prefix "9" rest then
             let (n, after) := nines rest in
             if headIsDigit after then None else Some (stdFracSecond9, S n)
           else None
       | EmptyString => None
       end.

(** Adds a literal byte in front of the first prefix of a chunk list. *)
Definition pushLiteral (c : ascii) (cs : list (string * option std))
  : list (string * option std) :=
  match cs with
  | (p, o) :: cs' => (String c p, o) :: cs'
  | [] => [(String c EmptyString, None)]
  end.

(** The layout as the list of its chunks: each reference element with the
    literal text before it, then the literal text after the last one.
    [skipped] counts the bytes still to pass of an element already
    emitted. *)
Fixpoint chunksFrom (skipped : nat) (layout : string)
  : list (string * option std) :=
  match layout with
  | EmptyString => [(EmptyString, None)]
  | String c rest =>
      match skipped with
      | S n => chunksFrom n rest
      | O =>
          match stdAt layout with
          | Some (s, len) => (EmptyString, Some s) :: chunksFrom (pred len) rest
          | None => pushLiteral c (chunksFrom O rest)
          end
      end
  end.

Definition chunks (layout : string) : list (string * option std) :=
  chunksFrom O layout.

Fixpoint cutspace (s : string) : string :=
  match s with
  | String c s' => if Ascii.eqb c " " then cutspace s' else s
  | EmptyString => s
  end.

(** [skip(value, prefix)]: a space of the prefix stands for any run of
    spaces of the value, every other byte for itself.  [inSpaces] says
    that the previous byte of the prefix was a space, removed with it. *)
Fixpoint skipFrom (inSpaces : bool) (value pre : string) : option string :=
  match pre with
  | EmptyString => Some value
  | String p pre' =>
      if Ascii.eqb p " " then
        if inSpaces then skipFrom true value pre'
        else
          match value with
          | String c _ =>
              if Ascii.eqb c " " then skipFrom true (cutspace value) pre'
              else None
          | EmptyString => skipFrom true value pre'
          end
      else
        match value with
        | String c value' =>
            if Ascii.eqb c p then skipFrom false value' pre' else None
        | EmptyString => None
        end
  end.

Definition skip (value pre : string) : option string :=
  skipFrom false value pre.

(** [getnum(s, fixed)]: one or two leading digits, two when [fixed]. *)
Definition getnum (s : string) (fixed : bool) : option (Z * string) :=
  match s with
  | String a s1 =>
      if isDigit a then
        match s1 with
        | String b s2 =>
            if isDigit b then Some (10 * digitVal a + digitVal b, s2)
            else if fixed then None else Some (digitVal a, s1)
        | EmptyString => if fixed then None else Some (digitVal a, s1)
        end
      else None
  | EmptyString => None
  end.

Fixpoint dropDigits (s : string) : string :=
  match s with
  | String c s' => if isDigit c then dropDigits s' else s
  | EmptyString => s
  end.

(** A period or comma followed by a digit at the head of the value. *)
Definition hasFraction (value : string) : bool :=
  match value with
  | String c (String d _) => commaOrPeriod c && isDigit d
  | _ => false
  end.

(** Removes the separator and the digits after it. *)
Definition dropFraction (value : string) : string :=
  match value with
  | String _ rest => dropDigits rest
  | EmptyString => value
  end.

(** The fields of the time under construction that decide success. *)
Record fields : Type := mkFields { year : Z; month : Z; day : Z }.

Definition parseZone (value : string) : option string :=
  match value with
  | String "Z" rest => Some rest
  | _ =>
      if (String.length value <? 6)%nat then None
      else
        match String.get 3 value, String.get 0 value with
        | Some colon, Some sign =>
            if negb (Ascii.eqb colon ":") then None
            else
              match getnum (substring 1 2 value) true,
                    getnum (substring 4 2 value) true with
              | Some (hr, _), Some (mm, _) =>
                  if (24 <? hr) || (60 <? mm) then None
                  else if Ascii.eqb sign "+" || Ascii.eqb sign "-"
                       then Some (substring 6 (String.length value - 6) value)
                       else None
              | _, _ => None
              end
        | _, _ => None
        end
  end.

(** One reference element consumed from the value.  [fracNext] says that
    the next reference element of the layout is a fraction. *)
Definition parseStd (s : std) (fracNext : bool) (value : string) (f : fields)
  : option (string * fields) :=
  match s with
  | stdLongYear =>
      if (String.length value <? 4)%nat then None
      else
        match parseDigits (substring 0 4 value) 0 with
        | Some y =>
            Some (substring 4 (String.length value - 4) value,
                  mkFields y (month f) (day f))
        | None => None
        end
  | stdZeroMonth =>
      match getnum value true with
      | Some (m, rest) =>
          if (m <=? 0) || (12 <? m) then None
          else Some (rest, mkFields (year f) m (day f))
      | None => None
      end
  | stdZeroDay =>
      match getnum value true with
      | Some (d, rest) => Some (rest, mkFields (year f) (month f) d)
      | None => None
      end
  | stdHour =>
      match getnum value false with
      | Some (h, rest) => if 24 <=? h then None else Some (rest, f)
      | None => None
      end
  | stdZeroMinute =>
      match getnum value true with
      | Some (m, rest) => if 60 <=? m then None else Some (rest, f)
      | None => None
      end
  | stdZeroSecond =>
      match getnum value true with
      | Some (sec, rest) =>
          if 60 <=? sec then None
          else if hasFraction rest && negb fracNext
               then Some (dropFraction rest, f)
               else Some (rest, f)
      | None => None
      end
  | stdFracSecond9 =>
      if hasFraction value then Some (dropFraction value, f)
      else Some (value, f)
  | stdISO8601ColonTZ =>
      match parseZone value with
      | Some rest => Some (rest, f)
      | None => None
      end
  end.

Definition nextIsFraction (cs : list (string * option std)) : bool :=
  match cs with
  | (_, Some stdFracSecond9) :: _ => true
  | _ => false
  end.

(** The loop of [parse]: one chunk per iteration. *)
Fixpoint parseChunks (cs : list (string * option std)) (value : string)
         (f : fields) : option fields :=
  match cs with
  | [] => Some f
  | (pre, o) :: cs' =>
      match skip value pre with
      | None => None
      | Some value1 =>
          match o with
          | None =>
              match value1 with EmptyString => Some f | _ => None end
          | Some s =>
              match parseStd s (nextIsFraction cs') value1 f with
              | Some (value2, f') => parseChunks cs' value2 f'
              | None => None
              end
          end
      end
  end.

Definition isLeap (y : Z) : bool :=
  (y mod 4 =? 0) && (negb (y mod 100 =? 0) || (y mod 400 =? 0)).

Definition daysIn (m y : Z) : Z :=
  if m =? 2 then (if isLeap y then 29 else 28)
  else if (m =? 4) || (m =? 6) || (m =? 9) || (m =? 11) then 30
  else 31.

(** [true] iff [time.Parse(layout, value)] returns a nil error. *)
Definition Parse (layout value : string) : bool :=
  match parseChunks (chunks layout) value (mkFields 0 (-1) (-1)) with
  | Some f =>
      let m := if month f <? 0 then 1 else month f in
      let d := if day f <? 0 then 1 else day f in
      negb ((d <? 1) || (daysIn m (year f) <? d))
  | None => false
  end.

End GoTime.

(* ================================================================== *)
(** * The validator *)
(* ================================================================== *)

(** [value == nil] for a value of type [interface{}]. *)
Definition isNil (v : Value) : bool :=
  match v with VNil => true | _ => false end.

(** [m[key]] followed by a use [k] of the value found, [None] when the key
    is absent.  The use is applied inside the lookup so that a validation
    of a nested schema, which is part of the map, is a call on a part of
    the schema. *)
Section LookupWith.
Context {A : Type} (k : Value -> option A).

Fixpoint lookupWith (m : Map) (key : string) : option A :=
  match m with
  | [] => None
  | (key', v) :: m' =>
      if String.eqb key' key then k v else lookupWith m' key
  end.
End LookupWith.

Section Validator.

(** [time_Parse layout value] is [true] iff [time.Parse(layout, value)]
    returns a nil error, [strconv_ParseInt s] iff
    [strconv.ParseInt(s, 10, 64)] does. *)
Variable time_Parse : string -> string -> bool.
Variable strconv_ParseInt : string -> bool.

Definition layouts : list string :=
  [ GoTime.RFC3339;
    GoTime.RFC3339Nano;
    "2006-01-02";
    "2006-01-02 15:04:05";
    "2006-01-02T15:04:05";
    "2006-01-02T15:04:05Z07:00" ].

(** isValidISODateString validates common ISO-8601/RFC3339 date-time
    formats. *)
Definition isValidISODateString (s : string) : bool :=
  existsb (fun layout => time_Parse layout s) layouts.

Definition validateFieldType (fieldName : string) (value : Value)
           (expectedType : string) : outcome :=
  (* Handle explicit nulls early *)
  if isNil value then
    if (expectedType =? "null")%string then Nil
    else Errorf1 "field '" fieldName "' must not be null"
  else if (expectedType =? "string")%string then
    match assertString value with
    | Some _ => Nil
    | None => Errorf1 "field '" fieldName "' must be a string"
    end
  else if (expectedType =? "number")%string then
    match value with
    | VInt _ | VInt32 _ | VInt64 _ | VFloat32 _ | VFloat64 _ => Nil
    | _ => Errorf1 "field '" fieldName "' must be a number"
    end
  else if (expectedType =? "double")%string then
    match value with
    | VFloat32 _ | VFloat64 _ => Nil
    | _ => Errorf1 "field '" fieldName "' must be a double (floating-point)"
    end
  else if (expectedType =? "boolean")%string || (expectedType =? "bool")%string then
    match assertBool value with
    | Some _ => Nil
    | None => Errorf1 "field '" fieldName "' must be a boolean"
    end
  else if (expectedType =? "array")%string then
    match reflect.TypeOf value with
    | None => Panic
    | Some kind =>
        if negb (reflect.Kind_eqb kind reflect.Slice)
        then Errorf1 "field '" fieldName "' must be an array"
        else Nil
    end
  else if (expectedType =? "object")%string then
    match assertMap value with
    | Some _ => Nil
    | None => Errorf1 "field '" fieldName "' must be an object"
    end
  else if (expectedType =? "null")%string then
    (* Already handled by early check; reaching here means non-nil value *)
    Errorf1 "field '" fieldName "' must be null"
  else if (expectedType =? "date")%string then
    match value with
    | VTime _ => Nil
    | VDateTime _ => Nil
    | VString v =>
        if negb (isValidISODateString v)
        then Errorf1 "field '" fieldName
               "' must be a valid ISO date string (e.g., RFC3339)"
        else Nil
    | _ => Errorf1 "field '" fieldName
             "' must be a date (time.Time, primitive.DateTime, or ISO string)"
    end
  else if (expectedType =? "timestamp")%string then
    match value with
    | VTimestamp _ _ => Nil
    | VInt _ | VInt32 _ | VInt64 _ => Nil
    | VFloat64 _ | VFloat32 _ => Nil
    | VString v =>
        if negb (strconv_ParseInt v)
        then Errorf1 "field '" fieldName
               "' must be a numeric string representing a timestamp"
        else Nil
    | _ => Errorf1 "field '" fieldName
             "' must be a timestamp (integer, numeric string, or primitive.Timestamp)"
    end
  else Nil.

(** The nested schema of a field of type object: [properties] when it is
    a map, else [schema] when it is one.  The source goes on only when the
    map found is not nil; a nil map is an empty schema here, against which
    every data object is valid, so the two agree. *)
Definition nestedSchema (fieldInfo : Map) : option Map :=
  match assertMap (index fieldInfo "properties") with
  | Some ns => Some ns
  | None => assertMap (index fieldInfo "schema")
  end.

(** Accept map[string]interface{} (JSON) or bson.M (Mongo) *)
Definition nestedDataOf (value : Value) : option Map :=
  match assertMap value with
  | Some objMap => Some objMap
  | None => assertBsonM value
  end.

(** Schema validation.  The recursion is on the schema as a [Value], so
    that the nested schema found under [properties] or [schema] is a part
    of it.  [loop] is the loop over the schema: [continue] is the call on
    the rest of the schema, [return] ends the walk.  [nested key] is
    [fieldInfo[key].(map[string]interface{})] with the validator against
    the map found as its use. *)
Fixpoint validateAgainst (schemaValue : Value) (data : Map)
         {struct schemaValue} : outcome :=
  match schemaValue with
  | VMap schema =>
      (fix loop (schema : Map) : outcome :=
         match schema with
         | [] => Nil
         | (field, fieldSchema) :: rest =>
             match fieldSchema with
             | VMap fieldInfo =>
                 let required := boolOrZero (index fieldInfo "required") in
                 let fieldType := stringOrZero (index fieldInfo "type") in
                 match lookup data field with
                 | None =>
                     (* Check if required field is missing *)
                     if required
                     then Errorf1 "required field '" field "' is missing"
                     else loop rest
                 | Some value =>
                     (* Validate field type *)
                     match validateFieldType field value fieldType with
                     | Nil =>
                         (* If the field is an object and a nested schema
                            is provided, validate recursively *)
                         if (fieldType =? "object")%string then
                           let nested (key : string) :=
                             lookupWith
                               (fun v =>
                                  match v with
                                  | VMap _ => Some (validateAgainst v)
                                  | _ => None
                                  end) fieldInfo key in
                           match (match nested "properties" with
                                  | Some validateNested => Some validateNested
                                  | None => nested "schema"
                                  end) with
                           | Some validateNested =>
                               match nestedDataOf value with
                               | Some nestedData =>
                                   match validateNested nestedData with
                                   | Nil => loop rest
                                   | Error err =>
                                       Error ("object field '" ++ field
                                              ++ "' validation failed: "
                                              ++ err)
                                   | Panic => Panic
                                   end
                               | None =>
                                   Errorf1 "field '" field
                                     "' must be an object for nested validation"
                               end
                           | None => loop rest
                           end
                         else loop rest
                     | err => err
                     end
                 end
             | _ => loop rest
             end
         end) schema
  | _ => Nil
  end.

Definition validateDataAgainstSchema (data schema : Map) : outcome :=
  validateAgainst (VMap schema) data.

(** One iteration of the loop of [validateDataAgainstSchema], written as
    the source has it: [continue] is what the rest of the loop returns.
    [validateDataAgainstSchema_cons] below shows that the validator takes
    exactly this step at every entry of the schema. *)
Definition validateField (data : Map) (field : string) (fieldSchema : Value)
           (continue : outcome) : outcome :=
  match assertMap fieldSchema with
  | None => continue
  | Some fieldInfo =>
      let required := boolOrZero (index fieldInfo "required") in
      let fieldType := stringOrZero (index fieldInfo "type") in
      match lookup data field with
      | None =>
          if required
          then Errorf1 "required field '" field "' is missing"
          else continue
      | Some value =>
          match validateFieldType field value fieldType with
          | Nil =>
              if (fieldType =? "object")%string then
                match nestedSchema fieldInfo with
                | Some ns =>
                    match nestedDataOf value with
                    | Some nestedData =>
                        match validateDataAgainstSchema nestedData ns with
                        | Nil => continue
                        | Error err =>
                            Error ("object field '" ++ field
                                   ++ "' validation failed: " ++ err)
                        | Panic => Panic
                        end
                    | None =>
                        Errorf1 "field '" field
                          "' must be an object for nested validation"
                    end
                | None => continue
                end
              else continue
          | err => err
          end
      end
  end.

End Validator.

(** The size of a schema: its entries and those of the maps nested in it. *)
Fixpoint sizeValue (v : Value) : nat :=
  match v with
  | VMap m =>
      S ((fix sizeEntries (m : Map) : nat :=
            match m with
            | [] => O
            | (_, v') :: m' => (sizeValue v' + sizeEntries m')%nat
            end) m)
  | _ => 1%nat
  end.

Definition sizeMap (m : Map) : nat := sizeValue (VMap m).

(* ================================================================== *)
(** * Numbers of the data as rationals *)
(* ================================================================== *)

(** The rational a finite IEEE-754 bit pattern stands for, with [ebits]
    bits of exponent and [mbits] bits of mantissa; [None] for infinities
    and NaN. *)
Definition floatValue (ebits mbits : Z) (bits : Z) : option Q :=
  let sign := Z.testbit bits (ebits + mbits) in
  let e := Z.land (Z.shiftr bits mbits) (2 ^ ebits - 1) in
  let m := Z.land bits (2 ^ mbits - 1) in
  let bias := 2 ^ (ebits - 1) - 1 in
  if e =? 2 ^ ebits - 1 then None
  else
    let magnitude :=
      if e =? 0 then (inject_Z m * Qpower 2 (1 - bias - mbits))%Q
      else (inject_Z (2 ^ mbits + m) * Qpower 2 (e - bias - mbits))%Q in
    Some (if sign then Qopp magnitude else magnitude).

Definition float64Value : Z -> option Q := floatValue 11 52.
Definition float32Value : Z -> option Q := floatValue 8 23.

(** The number a value of a numeric dynamic type holds. *)
Definition numberValue (v : Value) : option Q :=
  match v with
  | VInt i | VInt32 i | VInt64 i => Some (inject_Z i)
  | VFloat32 bits => float32Value bits
  | VFloat64 bits => float64Value bits
  | _ => None
  end.

(** The float64 that [encoding/json] decodes the literals [-5], [0], [25]
    and [42] to. *)
Definition float64_neg5 : Z := 0xC014000000000000.
Definition float64_0 : Z := 0.
Definition float64_25 : Z := 0x4039000000000000.
Definition float64_42 : Z := 0x4045000000000000.

(* ================================================================== *)
(** * The contract in the words of the specification *)
(* ================================================================== *)

(** These definitions follow the specification, not the code: they say
    what it means for a value to be of a kind and for a data object to
    satisfy a schema.  The validator is compared with them below. *)
Section SpecWords.

Variable time_Parse : string -> string -> bool.
Variable strconv_ParseInt : string -> bool.

(** What it means for a value to satisfy the constraints a schema node
    declares (pattern, lengths, bounds, items): left open here. *)
Variable in_bounds : Map -> Value -> bool.

(** The accepted textual layouts of a date: RFC3339 with or without
    sub-second precision, YYYY-MM-DD, YYYY-MM-DD HH:MM:SS,
    YYYY-MM-DDTHH:MM:SS, RFC3339 with explicit offset. *)
Definition spec_layouts : list string :=
  [ "2006-01-02T15:04:05Z07:00";
    "2006-01-02T15:04:05.999999999Z07:00";
    "2006-01-02";
    "2006-01-02 15:04:05";
    "2006-01-02T15:04:05";
    "2006-01-02T15:04:05Z07:00" ].

(** A value is of a kind (classify returns Ok). *)
Definition spec_classify (value : Value) (expectedKind : string) : bool :=
  match value with
  | VNil => (expectedKind =? "null")%string
  | VString s =>
      (expectedKind =? "string")%string
      || ((expectedKind =? "date")%string
          && existsb (fun layout => time_Parse layout s) spec_layouts)
      || ((expectedKind =? "timestamp")%string && strconv_ParseInt s)
  | VInt _ | VInt32 _ | VInt64 _ =>
      (expectedKind =? "number")%string
      || (expectedKind =? "timestamp")%string
  | VFloat32 _ | VFloat64 _ =>
      (expectedKind =? "number")%string
      || (expectedKind =? "double")%string
      || (expectedKind =? "timestamp")%string
  | VBool _ =>
      (expectedKind =? "boolean")%string || (expectedKind =? "bool")%string
  | VSlice _ => (expectedKind =? "array")%string
  | VMap _ => (expectedKind =? "object")%string
  | VTime _ | VDateTime _ => (expectedKind =? "date")%string
  | VTimestamp _ _ => (expectedKind =? "timestamp")%string
  | VBsonM _ | VOther _ => false
  end.

(** The kind and the nested schema of a schema node: the nested schema
    comes from [properties] or from [schema], [properties] first. *)
Definition spec_kind (node : Map) : string :=
  match lookup node "type" with
  | Some (VString kind) => kind
  | _ => ""
  end.

Definition spec_nested (node : Map) : option Map :=
  match lookup node "properties" with
  | Some (VMap nested) => Some nested
  | _ =>
      match lookup node "schema" with
      | Some (VMap nested) => Some nested
      | _ => None
      end
  end.

Definition spec_required (node : Map) : bool :=
  match lookup node "required" with
  | Some (VBool required) => required
  | _ => false
  end.

(** The data object supplies, for each field the schema declares, a value
    of the declared kind that satisfies the declared constraints; the
    value of an object field with a nested schema satisfies that schema
    in turn.  A field that is not required may also be absent. *)
Inductive spec_satisfies : Map -> Map -> Prop :=
| satisfies_nil :
    forall data, spec_satisfies data []
| satisfies_absent :
    forall data field node rest,
      lookup data field = None ->
      spec_required node = false ->
      spec_satisfies data rest ->
      spec_satisfies data ((field, VMap node) :: rest)
| satisfies_cons :
    forall data field node rest value,
      lookup data field = Some value ->
      spec_classify value (spec_kind node) = true ->
      in_bounds node value = true ->
      (forall nested object,
          spec_kind node = "object" ->
          spec_nested node = Some nested ->
          value = VMap object ->
          spec_satisfies object nested) ->
      spec_satisfies data rest ->
      spec_satisfies data ((field, VMap node) :: rest).

End SpecWords.

(** A native temporal value. *)
Definition isNativeTemporal (v : Value) : bool :=
  match v with
  | VTime _ | VDateTime _ => true
  | _ => false
  end.

(** The rules for a schema definition: the kind of every entry is one of
    the recognized ones, an array declares [items], a constraint key is
    legal for the kind, and a field name does not start with [$] and does
    not contain a period.  The rules are those of the entries of the
    schema itself. *)
Definition spec_kinds : list string :=
  [ "string"; "number"; "double"; "boolean"; "array"; "object"; "null";
    "date"; "timestamp" ].

Definition spec_fieldNameOk (name : string) : bool :=
  negb (prefix "$" name)
  && negb (existsb (Ascii.eqb ".") (list_ascii_of_string name)).

Definition spec_constraintLegal (kind key : string) : bool :=
  if existsb (String.eqb key) ["pattern"; "minLength"; "maxLength"]
  then (kind =? "string")%string
  else if existsb (String.eqb key) ["minimum"; "maximum"]
       then (kind =? "number")%string || (kind =? "double")%string
       else true.

Definition spec_nodeOk (entry : Value) : bool :=
  match entry with
  | VMap node =>
      let kind := spec_kind node in
      existsb (String.eqb kind) spec_kinds
      && (negb (kind =? "array")%string
          || match lookup node "items" with Some _ => true | None => false end)
      && forallb (fun kv => spec_constraintLegal kind (fst kv)) node
  | _ => false
  end.

Definition spec_schemaDefinitionOk (schema : Map) : bool :=
  forallb (fun kv => spec_fieldNameOk (fst kv) && spec_nodeOk (snd kv)) schema.

(** The numeric and length bounds a schema node declares, as the
    documentation of the repository describes them: [minimum] and [maximum]
    on a number, [minLength] and [maxLength] on the length of a string. *)
Definition boundHolds (bound : Value) (test : Q -> bool) : bool :=
  match numberValue bound with
  | Some b => test b
  | None => true
  end.

Definition declaredBoundsHold (node : Map) (value : Value) : bool :=
  match value with
  | VString s =>
      let len := inject_Z (Z.of_nat (String.length s)) in
      boundHolds (index node "minLength") (fun lo => Qle_bool lo len)
      && boundHolds (index node "maxLength") (fun hi => Qle_bool len hi)
  | _ =>
      match numberValue value with
      | Some x =>
          boundHolds (index node "minimum") (fun lo => Qle_bool lo x)
          && boundHolds (index node "maximum") (fun hi => Qle_bool x hi)
      | None => true
      end
  end.

(* ================================================================== *)
(** * Products and leads *)
(* ================================================================== *)

(** Product represents a product with its schema *)
Record Product : Type := mkProduct {
  ID : string;
  Name : string;
  Description : string;
  Schema : Map;
  CreatedAt : Z;
  UpdatedAt : Z
}.

(** Lead represents a lead with product reference and data *)
Record Lead : Type := mkLead {
  LeadID : string;
  ProductID : string;
  Data : Map;
  LeadCreatedAt : Z;
  LeadUpdatedAt : Z
}.

Record CreateProductRequest : Type := mkCreateProductRequest {
  reqName : string;
  reqDescription : string;
  reqSchema : Map
}.

Record UpdateProductRequest : Type := mkUpdateProductRequest {
  updID : string;
  updName : string;
  updDescription : string;
  updSchema : Map
}.

Record CreateLeadRequest : Type := mkCreateLeadRequest {
  leadProductID : string;
  leadData : Map
}.

(** The two collections of the database. *)
Record DB : Type := mkDB {
  productCollection : list Product;
  leadCollection : list Lead
}.

(** What a handler returns: a response, or a gRPC status; the handler may
    also panic. *)
Inductive reply (A : Type) : Type :=
| Response (r : A)
| NotFound (msg : string)
| Internal (msg : string)
| InvalidArgument (msg : string)
| Panicked.

Arguments Response {A} r.
Arguments NotFound {A} msg.
Arguments Internal {A} msg.
Arguments InvalidArgument {A} msg.
Arguments Panicked {A}.

(** [FindOne] with the filter [{"_id": id}]. *)
Definition findProduct (c : list Product) (id : string) : option Product :=
  find (fun p => String.eqb (ID p) id) c.

(** [InsertOne]: the collection refuses a second document with the same
    [_id]. *)
Definition insertProduct (c : list Product) (p : Product)
  : option (list Product) :=
  match findProduct c (ID p) with
  | Some _ => None
  | None => Some (c ++ [p])
  end.

Definition insertLead (c : list Lead) (l : Lead) : option (list Lead) :=
  if existsb (fun l' => String.eqb (LeadID l') (LeadID l)) c then None
  else Some (c ++ [l]).

(** [UpdateOne] with [$set] on name, description, schema and updated_at:
    the collection after the update and [MatchedCount]. *)
Fixpoint updateProduct (c : list Product) (req : UpdateProductRequest)
         (now : Z) : list Product * nat :=
  match c with
  | [] => ([], O)
  | p :: c' =>
      if String.eqb (ID p) (updID req) then
        (mkProduct (ID p) (updName req) (updDescription req) (updSchema req)
                   (CreatedAt p) now :: c', 1%nat)
      else
        let (c'', n) := updateProduct c' req now in (p :: c'', n)
  end.

(** The handlers.  [newID] is the result of [primitive.NewObjectID().Hex()],
    [now1] and [now2] are those of the two calls of [time.Now()]; a response
    is the document it is built from, and the text of a database error is
    left out of the status message. *)
Definition CreateProduct (db : DB) (newID : string) (now1 now2 : Z)
           (req : CreateProductRequest) : DB * reply Product :=
  let product :=
    mkProduct newID (reqName req) (reqDescription req) (reqSchema req)
              now1 now2 in
  match insertProduct (productCollection db) product with
  | None => (db, Internal "failed to create product")
  | Some c => (mkDB c (leadCollection db), Response product)
  end.

Definition GetProduct (db : DB) (id : string) : reply Product :=
  match findProduct (productCollection db) id with
  | None => NotFound "product not found"
  | Some product => Response product
  end.

Definition UpdateProduct (db : DB) (now : Z) (req : UpdateProductRequest)
  : DB * reply Product :=
  let (c, matched) := updateProduct (productCollection db) req now in
  let db' := mkDB c (leadCollection db) in
  if Nat.eqb matched 0 then (db', NotFound "product not found")
  else (db', GetProduct db' (updID req)).

Section Handlers.

Variable time_Parse : string -> string -> bool.
Variable strconv_ParseInt : string -> bool.

Definition CreateLead (db : DB) (newID : string) (now1 now2 : Z)
           (req : CreateLeadRequest) : DB * reply Lead :=
  (* First, get the product to validate schema *)
  match findProduct (productCollection db) (leadProductID req) with
  | None => (db, NotFound "product not found")
  | Some product =>
      (* Validate data against product schema *)
      match validateDataAgainstSchema time_Parse strconv_ParseInt
              (leadData req) (Schema product) with
      | Error err =>
          (db, InvalidArgument ("data validation failed: " ++ err))
      | Panic => (db, Panicked)
      | Nil =>
          let lead :=
            mkLead newID (leadProductID req) (leadData req) now1 now2 in
          match insertLead (leadCollection db) lead with
          | None => (db, Internal "failed to create lead")
          | Some c => (mkDB (productCollection db) c, Response lead)
          end
      end
  end.

End Handlers.

(** The validator and the lead handler with the two library functions as
    modelled above. *)
Definition goValidateFieldType : string -> Value -> string -> outcome :=
  validateFieldType GoTime.Parse GoStrconv.ParseInt.

Definition goValidate : Map -> Map -> outcome :=
  validateDataAgainstSchema GoTime.Parse GoStrconv.ParseInt.

Definition goCreateLead
  : DB -> string -> Z -> Z -> CreateLeadRequest -> DB * reply Lead :=
  CreateLead GoTime.Parse GoStrconv.ParseInt.

(* ================================================================== *)
(** * Schemas and data of the documentation *)
(* ================================================================== *)

(** A schema node with a type and a required flag, followed by further
    keys. *)
Definition node (type : string) (required : bool) (more : Map) : Value :=
  VMap (("type", VString type) :: ("required", VBool required) :: more).

(** [{"name": {"type":"string","required":true},
      "age": {"type":"number","required":false,"minimum":0}}],
    in the two orders in which a loop may visit it. *)
Definition nameField : string * Value := ("name", node "string" true []).

Definition ageField : string * Value :=
  ("age", node "number" false [("minimum", VFloat64 float64_0)]).

Definition schemaNameAge : Map := [nameField; ageField].
Definition schemaAgeName : Map := [ageField; nameField].

(** [{"age": 25}] and [{"name":"Jane","age":-5}], [{"name":"Jane","age":25}] *)
Definition dataAge25 : Map := [("age", VFloat64 float64_25)].

Definition dataJaneNeg5 : Map :=
  [("name", VString "Jane"); ("age", VFloat64 float64_neg5)].

Definition dataJane25 : Map :=
  [("name", VString "Jane"); ("age", VFloat64 float64_25)].

(** [{"interests": {"type":"array","required":false,"items":"string"}}] and
    [{"interests": ["tech", "sales", 42]}] *)
Definition schemaInterests : Map :=
  [("interests", node "array" false [("items", VString "string")])].

Definition dataInterests : Map :=
  [("interests",
    VSlice [VString "tech"; VString "sales"; VFloat64 float64_42])].

(** The nested schema of the documentation, and a lead without
    [first_name]. *)
Definition userInfoProperties : Map :=
  [ ("first_name", node "string" true []);
    ("last_name", node "string" true []);
    ("age", node "number" false [("minimum", VFloat64 float64_0)]) ].

Definition schemaUserInfo : Map :=
  [("user_info", node "object" true [("properties", VMap userInfoProperties)])].

Definition dataUserInfoNoFirstName : Map :=
  [("user_info", VMap [("last_name", VString "Doe")])].

Definition dataUserInfo : Map :=
  [("user_info",
    VMap [("first_name", VString "Jane"); ("last_name", VString "Doe")])].

(** A schema definition that breaks every rule the documentation gives for
    one: a field name that starts with [$] and contains [.], a type that is
    not one of the recognized ones, an array without [items], and [pattern]
    on a number. *)
Definition malformedSchema : Map :=
  [ ("$set.x", node "integer" true []);
    ("tags", node "array" false []);
    ("score", node "number" false [("pattern", VString "^[0-9]+$")]) ].

Definition malformedProductRequest : CreateProductRequest :=
  mkCreateProductRequest "Broken" "malformed schema" malformedSchema.

Definition emptyDB : DB := mkDB [] [].

(* ================================================================== *)
(** * The remaining handlers *)
(* ================================================================== *)

(** The values of the [type] key that [validateFieldType] has a case
    for. *)
Definition knownTypes : list string :=
  [ "string"; "number"; "double"; "boolean"; "bool"; "array"; "object";
    "null"; "date"; "timestamp" ].

Record UpdateLeadRequest : Type := mkUpdateLeadRequest {
  ulID : string;
  ulData : Map
}.

Record ListProductsResponse : Type := mkListProductsResponse {
  Products : list Product;
  ProductsTotal : Z
}.

Record ListLeadsResponse : Type := mkListLeadsResponse {
  Leads : list Lead;
  LeadsTotal : Z
}.

(** The conversion [int32(x)]: the low 32 bits, read as a signed number. *)
Definition int32 (x : Z) : Z := (x + 2 ^ 31) mod 2 ^ 32 - 2 ^ 31.

Definition findLead (c : list Lead) (id : string) : option Lead :=
  find (fun l => String.eqb (LeadID l) id) c.

(** [DeleteOne] with the filter [{"_id": id}]: the collection after the
    call and [DeletedCount]. *)
Fixpoint deleteProduct (c : list Product) (id : string)
  : list Product * nat :=
  match c with
  | [] => ([], O)
  | p :: c' =>
      if String.eqb (ID p) id then (c', 1%nat)
      else let (c'', n) := deleteProduct c' id in (p :: c'', n)
  end.

Fixpoint deleteLead (c : list Lead) (id : string) : list Lead * nat :=
  match c with
  | [] => ([], O)
  | l :: c' =>
      if String.eqb (LeadID l) id then (c', 1%nat)
      else let (c'', n) := deleteLead c' id in (l :: c'', n)
  end.

(** [UpdateOne] with [$set] on data and updated_at. *)
Fixpoint updateLead (c : list Lead) (id : string) (data : Map) (now : Z)
  : list Lead * nat :=
  match c with
  | [] => ([], O)
  | l :: c' =>
      if String.eqb (LeadID l) id then
        (mkLead (LeadID l) (ProductID l) data (LeadCreatedAt l) now :: c',
         1%nat)
      else
        let (c'', n) := updateLead c' id data now in (l :: c'', n)
  end.

(** [Find] with a limit and a skip, in the order of the collection.  The
    store refuses a negative skip; a limit of zero is no limit, and a
    negative limit asks for that many documents in one batch. *)
Definition findPage (A : Type) (c : list A) (limit skip : Z)
  : option (list A) :=
  if skip <? 0 then None
  else
    let rest := skipn (Z.to_nat skip) c in
    Some (if limit =? 0 then rest else firstn (Z.to_nat (Z.abs limit)) rest).

Definition DeleteProduct (db : DB) (id : string) : DB * reply unit :=
  let (c, deleted) := deleteProduct (productCollection db) id in
  let db' := mkDB c (leadCollection db) in
  if Nat.eqb deleted 0 then (db', NotFound "product not found")
  else (db', Response tt).

Definition ListProducts (db : DB) (reqLimit reqOffset : Z)
  : reply ListProductsResponse :=
  let limit := if reqLimit =? 0 then 10 else reqLimit in
  match findPage (productCollection db) limit reqOffset with
  | None => Internal "failed to list products"
  | Some products =>
      (* Get total count *)
      let total := Z.of_nat (List.length (productCollection db)) in
      Response (mkListProductsResponse products (int32 total))
  end.

Definition GetLead (db : DB) (id : string) : reply Lead :=
  match findLead (leadCollection db) id with
  | None => NotFound "lead not found"
  | Some lead => Response lead
  end.

Definition DeleteLead (db : DB) (id : string) : DB * reply unit :=
  let (c, deleted) := deleteLead (leadCollection db) id in
  let db' := mkDB (productCollection db) c in
  if Nat.eqb deleted 0 then (db', NotFound "lead not found")
  else (db', Response tt).

Definition ListLeads (db : DB) (productID : string) (reqLimit reqOffset : Z)
  : reply ListLeadsResponse :=
  let matching :=
    if (productID =? "")%string then leadCollection db
    else filter (fun l => String.eqb (ProductID l) productID)
                (leadCollection db) in
  let limit := if reqLimit =? 0 then 10 else reqLimit in
  match findPage matching limit reqOffset with
  | None => Internal "failed to list leads"
  | Some leads =>
      let total := Z.of_nat (List.length matching) in
      Response (mkListLeadsResponse leads (int32 total))
  end.

Section LeadUpdate.

Variable time_Parse : string -> string -> bool.
Variable strconv_ParseInt : string -> bool.

Definition UpdateLead (db : DB) (now : Z) (req : UpdateLeadRequest)
  : DB * reply Lead :=
  (* Get existing lead to get product ID *)
  match findLead (leadCollection db) (ulID req) with
  | None => (db, NotFound "lead not found")
  | Some existingLead =>
      (* Get product schema for validation *)
      match findProduct (productCollection db) (ProductID existingLead) with
      | None => (db, Internal "failed to get product for validation")
      | Some product =>
          (* Validate data against product schema *)
          match validateDataAgainstSchema time_Parse strconv_ParseInt
                  (ulData req) (Schema product) with
          | Error err =>
              (db, InvalidArgument ("data validation failed: " ++ err))
          | Panic => (db, Panicked)
          | Nil =>
              let (c, matched) :=
                updateLead (leadCollection db) (ulID req) (ulData req) now in
              let db' := mkDB (productCollection db) c in
              if Nat.eqb matched 0 then (db', NotFound "lead not found")
              else (* Return updated lead *) (db', GetLead db' (ulID req))
          end
      end
  end.

End LeadUpdate.

(** ** The HTTP handlers *)

(** What an HTTP handler writes: a JSON body with status 200, the result
    of [http.Error] with its message and code, or status 204 without a
    body. *)
Inductive httpReply (A : Type) : Type :=
| HttpJSON (body : A)
| HttpError (msg : string) (code : Z)
| HttpNoContent
| HttpPanicked.

Arguments HttpJSON {A} body.
Arguments HttpError {A} msg code.
Arguments HttpNoContent {A}.
Arguments HttpPanicked {A}.

Definition StatusBadRequest : Z := 400.
Definition StatusNotFound : Z := 404.
Definition StatusInternalServerError : Z := 500.

Definition statusOf (A : Type) (r : httpReply A) : Z :=
  match r with
  | HttpJSON _ => 200
  | HttpError _ code => code
  | HttpNoContent => 204
  | HttpPanicked => 500
  end.

(** [err.Error()] of the status a handler returns. *)
Definition errorText (A : Type) (r : reply A) : string :=
  match r with
  | Response _ => ""
  | NotFound msg => "rpc error: code = NotFound desc = " ++ msg
  | Internal msg => "rpc error: code = Internal desc = " ++ msg
  | InvalidArgument msg => "rpc error: code = InvalidArgument desc = " ++ msg
  | Panicked => ""
  end.

(** The lead handlers answer a missing document with 404, an invalid
    argument with 400 and any other error with 500; [notFound] is the text
    of the 404. *)
Definition leadAnswer (A : Type) (notFound : string) (r : reply A)
  : httpReply A :=
  match r with
  | Response body => HttpJSON body
  | NotFound _ => HttpError notFound StatusNotFound
  | InvalidArgument _ => HttpError (errorText r) StatusBadRequest
  | Internal _ => HttpError (errorText r) StatusInternalServerError
  | Panicked => HttpPanicked
  end.

(** The product handlers that look a product up know 404 and 500 only. *)
Definition productAnswer (A : Type) (r : reply A) : httpReply A :=
  match r with
  | Response body => HttpJSON body
  | NotFound _ => HttpError "Product not found" StatusNotFound
  | Panicked => HttpPanicked
  | _ => HttpError (errorText r) StatusInternalServerError
  end.

(** The body of a request is given decoded: [None] when
    [json.NewDecoder(r.Body).Decode] fails. *)
Definition httpCreateProduct (db : DB) (newID : string) (now1 now2 : Z)
           (body : option CreateProductRequest) : DB * httpReply Product :=
  match body with
  | None => (db, HttpError "Invalid JSON" StatusBadRequest)
  | Some req =>
      let (db', r) := CreateProduct db newID now1 now2 req in
      match r with
      | Response product => (db', HttpJSON product)
      | Panicked => (db', HttpPanicked)
      | _ => (db', HttpError (errorText r) StatusInternalServerError)
      end
  end.

Definition httpGetProduct (db : DB) (id : string) : httpReply Product :=
  productAnswer (GetProduct db id).

Definition httpUpdateProduct (db : DB) (now : Z) (id : string)
           (body : option UpdateProductRequest) : DB * httpReply Product :=
  match body with
  | None => (db, HttpError "Invalid JSON" StatusBadRequest)
  | Some req =>
      let req' :=
        mkUpdateProductRequest id (updName req) (updDescription req)
                               (updSchema req) in
      let (db', r) := UpdateProduct db now req' in
      (db', productAnswer r)
  end.

Definition httpDeleteProduct (db : DB) (id : string) : DB * httpReply unit :=
  let (db', r) := DeleteProduct db id in
  match r with
  | Response _ => (db', HttpNoContent)
  | _ => (db', productAnswer r)
  end.

Definition httpGetLead (db : DB) (id : string) : httpReply Lead :=
  match GetLead db id with
  | Response lead => HttpJSON lead
  | NotFound _ => HttpError "Lead not found" StatusNotFound
  | Panicked => HttpPanicked
  | r => HttpError (errorText r) StatusInternalServerError
  end.

Definition httpDeleteLead (db : DB) (id : string) : DB * httpReply unit :=
  let (db', r) := DeleteLead db id in
  match r with
  | Response _ => (db', HttpNoContent)
  | NotFound _ => (db', HttpError "Lead not found" StatusNotFound)
  | Panicked => (db', HttpPanicked)
  | _ => (db', HttpError (errorText r) StatusInternalServerError)
  end.

Section HTTPHandlers.

Variable time_Parse : string -> string -> bool.
Variable strconv_ParseInt : string -> bool.

(** [strconv_Atoi s] is the number [strconv.Atoi(s)] returns with a nil
    error, [None] when the error is not nil. *)
Variable strconv_Atoi : string -> option Z.

Definition httpCreateLead (db : DB) (newID : string) (now1 now2 : Z)
           (body : option CreateLeadRequest) : DB * httpReply Lead :=
  match body with
  | None => (db, HttpError "Invalid JSON" StatusBadRequest)
  | Some req =>
      let (db', r) :=
        CreateLead time_Parse strconv_ParseInt db newID now1 now2 req in
      (db', leadAnswer "Product not found" r)
  end.

Definition httpUpdateLead (db : DB) (now : Z) (id : string)
           (body : option UpdateLeadRequest) : DB * httpReply Lead :=
  match body with
  | None => (db, HttpError "Invalid JSON" StatusBadRequest)
  | Some req =>
      let (db', r) :=
        UpdateLead time_Parse strconv_ParseInt db now
                   (mkUpdateLeadRequest id (ulData req)) in
      (db', leadAnswer "Lead not found" r)
  end.

(** A query parameter read as an [int32]: the default when the parameter
    is empty or not a number. *)
Definition queryInt32 (param : string) (default : Z) : Z :=
  if negb (param =? "")%string then
    match strconv_Atoi param with
    | Some n => int32 n
    | None => default
    end
  else default.

Definition httpListProducts (db : DB) (limitStr offsetStr : string)
  : httpReply ListProductsResponse :=
  let limit := queryInt32 limitStr 10 in
  let offset := queryInt32 offsetStr 0 in
  match ListProducts db limit offset with
  | Response products => HttpJSON products
  | Panicked => HttpPanicked
  | r => HttpError (errorText r) StatusInternalServerError
  end.

Definition httpListLeads (db : DB) (productID limitStr offsetStr : string)
  : httpReply ListLeadsResponse :=
  let limit := queryInt32 limitStr 10 in
  let offset := queryInt32 offsetStr 0 in
  match ListLeads db productID limit offset with
  | Response leads => HttpJSON leads
  | Panicked => HttpPanicked
  | r => HttpError (errorText r) StatusInternalServerError
  end.

End HTTPHandlers.

(** [strconv.Atoi]: an optional sign and decimal digits, within 64 bits. *)
Definition goAtoi (s : string) : option Z :=
  match s with
  | EmptyString => None
  | String c rest =>
      let neg := Ascii.eqb c "-" in
      let body := if Ascii.eqb c "+" || Ascii.eqb c "-" then rest else s in
      match GoStrconv.ParseUint body with
      | None => None
      | Some un =>
          if neg then (if un <=? 2 ^ 63 then Some (- un) else None)
          else (if un <? 2 ^ 63 then Some un else None)
      end
  end.

(** Every lead of the database refers to a product of the database whose
    schema accepts its data. *)
Definition leadsValid (validate : Map -> Map -> outcome) (db : DB) : Prop :=
  forall lead,
    In lead (leadCollection db) ->
    exists product,
      findProduct (productCollection db) (ProductID lead) = Some product
      /\ validate (Data lead) (Schema product) = Nil.

(** The documents of each collection have different [_id]s. *)
Definition uniqueIDs (db : DB) : Prop :=
  NoDup (map ID (productCollection db))
  /\ NoDup (map LeadID (leadCollection db)).

(** A database with one product and one lead of it. *)
Definition productContacts : Product :=
  mkProduct "p1" "Contacts" "name and age" schemaNameAge 1 1.

Definition leadJane : Lead := mkLead "l1" "p1" dataJane25 2 2.

Definition contactsDB : DB := mkDB [productContacts] [leadJane].

(** The last two bytes of a message, last byte first. *)
Definition lastTwo (s : string) : list ascii :=
  firstn 2 (rev (list_ascii_of_string s)).

(** The last two bytes of the message of an error. *)
Definition errorTail (o : outcome) : list ascii :=
  match o with
  | Error msg => lastTwo msg
  | _ => []
  end.

(** The error of the nested-validation fallback of the validator. *)
Definition nestedFallbackMessage (field : string) : string :=
  "field '" ++ field ++ "' must be an object for nested validation".

(* ================================================================== *)
(** * The equations of the validator *)
(* ================================================================== *)

Unset Implicit Arguments.

Lemma lookupWith_lookup (A : Type) (k : Value -> option A) (m : Map)
      (key : string) :
  lookupWith k m key =
  match lookup m key with Some v => k v | None => None end.
Proof.
  induction m as [|[key' v] m IH]; simpl; [reflexivity|].
  destruct (String.eqb key' key); [reflexivity | exact IH].
Qed.

Section ValidatorFacts.

Variable time_Parse : string -> string -> bool.
Variable strconv_ParseInt : string -> bool.

Local Abbreviation validateFieldType :=
  (validateFieldType time_Parse strconv_ParseInt).
Local Abbreviation validateAgainst :=
  (validateAgainst time_Parse strconv_ParseInt).
Local Abbreviation validateDataAgainstSchema :=
  (validateDataAgainstSchema time_Parse strconv_ParseInt).
Local Abbreviation validateField :=
  (validateField time_Parse strconv_ParseInt).

Lemma validateDataAgainstSchema_nil (data : Map) :
  validateDataAgainstSchema data [] = Nil.
Proof. reflexivity. Qed.

(** The nested validator that the loop finds under a key is the validator
    against the map stored under that key. *)
Lemma nested_lookup (fieldInfo : Map) (key : string) :
  lookupWith
    (fun v => match v with
              | VMap _ => Some (validateAgainst v)
              | _ => None
              end) fieldInfo key =
  match assertMap (index fieldInfo key) with
  | Some ns => Some (fun nestedData => validateDataAgainstSchema nestedData ns)
  | None => None
  end.
Proof.
  rewrite lookupWith_lookup. unfold index.
  destruct (lookup fieldInfo key) as [v|]; [|reflexivity].
  destruct v; reflexivity.
Qed.

(** The validator takes the step [validateField] at the first entry of
    the schema and goes on with the rest. *)
Lemma validateDataAgainstSchema_cons (data : Map) (field : string)
      (fieldSchema : Value) (rest : Map) :
  validateDataAgainstSchema data ((field, fieldSchema) :: rest) =
  validateField data field fieldSchema (validateDataAgainstSchema data rest).
Proof.
  unfold validateDataAgainstSchema, validateField.
  destruct fieldSchema as [| | | | | | | | |fieldInfo| | | | |];
    try reflexivity.
  cbn [validateAgainst assertMap].
  destruct (lookup data field) as [value|]; [|reflexivity].
  destruct (validateFieldType field value
              (stringOrZero (index fieldInfo "type"))); try reflexivity.
  destruct (stringOrZero (index fieldInfo "type") =? "object")%string;
    [|reflexivity].
  rewrite !nested_lookup. unfold nestedSchema.
  destruct (assertMap (index fieldInfo "properties")) as [ns|].
  - reflexivity.
  - destruct (assertMap (index fieldInfo "schema")); reflexivity.
Qed.

(** A step either leaves the loop with an error of its own or goes on:
    what it returns when the rest of the loop returns [continue] is
    decided by what it returns when the rest returns nil. *)
Lemma validateField_continue (data : Map) (field : string)
      (fieldSchema : Value) (continue : outcome) :
  validateField data field fieldSchema continue =
  match validateField data field fieldSchema Nil with
  | Nil => continue
  | err => err
  end.
Proof.
  unfold validateField.
  destruct (assertMap fieldSchema) as [fieldInfo|]; [|reflexivity].
  destruct (lookup data field) as [value|].
  - destruct (validateFieldType _ _ _); try reflexivity.
    destruct (_ =? "object")%string; [|reflexivity].
    destruct (nestedSchema fieldInfo); [|reflexivity].
    destruct (nestedDataOf value); [|reflexivity].
    destruct (validateDataAgainstSchema _ _); reflexivity.
  - destruct (boolOrZero _); reflexivity.
Qed.

(** Fail-fast over a schema visited in two parts. *)
Lemma validateDataAgainstSchema_app (data pre post : Map) :
  validateDataAgainstSchema data (pre ++ post) =
  match validateDataAgainstSchema data pre with
  | Nil => validateDataAgainstSchema data post
  | err => err
  end.
Proof.
  induction pre as [|[field fieldSchema] pre IH].
  - reflexivity.
  - rewrite <- app_comm_cons, !validateDataAgainstSchema_cons.
    rewrite (validateField_continue _ _ _ (validateDataAgainstSchema data (pre ++ post))).
    rewrite (validateField_continue _ _ _ (validateDataAgainstSchema data pre)).
    destruct (validateField data field fieldSchema Nil);
      [exact IH | reflexivity | reflexivity].
Qed.

(** ** Induction on a schema and the schemas nested in it *)

Lemma sizeMap_cons (field : string) (v : Value) (m : Map) :
  sizeMap ((field, v) :: m) = (sizeValue v + sizeMap m)%nat.
Proof. unfold sizeMap. simpl. lia. Qed.

Lemma sizeValue_pos (v : Value) : (1 <= sizeValue v)%nat.
Proof. destruct v; simpl; lia. Qed.

Lemma lookup_size (m : Map) (key : string) (v : Value) :
  lookup m key = Some v -> (sizeValue v < sizeMap m)%nat.
Proof.
  induction m as [|[k v'] m IH]; simpl; [discriminate|].
  rewrite sizeMap_cons. destruct (String.eqb k key).
  - intros [= ->]. unfold sizeMap. simpl. lia.
  - intros H. specialize (IH H). pose proof (sizeValue_pos v'). lia.
Qed.

Lemma assertMap_index_size (m : Map) (key : string) (ns : Map) :
  assertMap (index m key) = Some ns -> (sizeMap ns < sizeMap m)%nat.
Proof.
  unfold index. destruct (lookup m key) as [v|] eqn:E; [|discriminate].
  destruct v; try discriminate. intros [= ->].
  exact (lookup_size _ _ _ E).
Qed.

Lemma nestedSchema_size (fieldInfo ns : Map) :
  nestedSchema fieldInfo = Some ns -> (sizeMap ns < sizeMap fieldInfo)%nat.
Proof.
  unfold nestedSchema.
  destruct (assertMap (index fieldInfo "properties")) as [m|] eqn:E.
  - intros [= ->]. exact (assertMap_index_size _ _ _ E).
  - apply assertMap_index_size.
Qed.

Lemma schema_nested_ind (P : Map -> Prop) :
  P [] ->
  (forall field fieldSchema rest,
      P rest ->
      (forall fieldInfo ns,
          fieldSchema = VMap fieldInfo ->
          nestedSchema fieldInfo = Some ns -> P ns) ->
      P ((field, fieldSchema) :: rest)) ->
  forall schema, P schema.
Proof.
  intros Hnil Hcons schema.
  remember (sizeMap schema) as n eqn:Hn.
  revert schema Hn.
  induction n as [n IH] using lt_wf_ind.
  intros [|[field fieldSchema] rest] Hn; [exact Hnil|].
  rewrite sizeMap_cons in Hn. pose proof (sizeValue_pos fieldSchema).
  apply Hcons.
  - apply (IH (sizeMap rest)); [lia | reflexivity].
  - intros fieldInfo ns -> Hns. apply nestedSchema_size in Hns.
    apply (IH (sizeMap ns)); [|reflexivity].
    unfold sizeMap in *. simpl in *. lia.
Qed.

(** ** The type check never panics *)

Lemma TypeOf_not_nil (value : Value) :
  isNil value = false -> reflect.TypeOf value <> None.
Proof. destruct value; simpl; congruence. Qed.

Lemma validateFieldType_no_panic (fieldName : string) (value : Value)
      (expectedType : string) :
  validateFieldType fieldName value expectedType <> Panic.
Proof.
  unfold validateFieldType, Errorf1.
  destruct (isNil value) eqn:Hnil.
  - destruct (_ =? _)%string; discriminate.
  - pose proof (TypeOf_not_nil _ Hnil) as HT.
    repeat match goal with
           | |- context [if ?c then _ else _] => destruct c
           | |- context [match reflect.TypeOf value with _ => _ end] =>
               destruct (reflect.TypeOf value); [|congruence]
           | |- context [match assertString ?v with _ => _ end] =>
               destruct (assertString v)
           | |- context [match assertBool ?v with _ => _ end] =>
               destruct (assertBool v)
           | |- context [match assertMap ?v with _ => _ end] =>
               destruct (assertMap v)
           end;
      try discriminate;
      destruct value; try discriminate;
      match goal with |- context [if ?c then _ else _] => destruct c end;
      discriminate.
Qed.

Lemma validateDataAgainstSchema_no_panic (schema data : Map) :
  validateDataAgainstSchema data schema <> Panic.
Proof.
  revert data.
  induction schema as [|field fieldSchema rest IHrest IHnested]
    using schema_nested_ind; intros data.
  - discriminate.
  - rewrite validateDataAgainstSchema_cons. unfold validateField, Errorf1.
    destruct fieldSchema as [| | | | | | | | |fieldInfo| | | | |];
      simpl; try apply IHrest.
    destruct (lookup data field) as [value|].
    + pose proof (validateFieldType_no_panic field value
                    (stringOrZero (index fieldInfo "type"))) as Hty.
      destruct (validateFieldType field value _); [|discriminate|congruence].
      destruct (_ =? "object")%string; [|apply IHrest].
      destruct (nestedSchema fieldInfo) as [ns|] eqn:Hns; [|apply IHrest].
      destruct (nestedDataOf value) as [nestedData|]; [|discriminate].
      pose proof (IHnested fieldInfo ns eq_refl Hns nestedData) as Hn.
      destruct (validateDataAgainstSchema nestedData ns);
        [apply IHrest | discriminate | congruence].
    + destruct (boolOrZero _); [discriminate | apply IHrest].
Qed.

(** ** Entries that are skipped *)

Lemma validateField_not_map (data : Map) (field : string) (entry : Value)
      (continue : outcome) :
  assertMap entry = None -> validateField data field entry continue = continue.
Proof. unfold validateField. intros ->. reflexivity. Qed.

Lemma validateField_absent (data : Map) (field : string) (fieldInfo : Map)
      (continue : outcome) :
  lookup data field = None ->
  validateField data field (VMap fieldInfo) continue =
  if boolOrZero (index fieldInfo "required")
  then Error ("required field '" ++ field ++ "' is missing")
  else continue.
Proof. unfold validateField. simpl. intros ->. reflexivity. Qed.

Lemma outcome_cases (o : outcome) :
  o <> Panic -> o = Nil \/ exists msg, o = Error msg.
Proof. destruct o; [left | right; eexists | congruence]; reflexivity. Qed.

(** C8. The validator is total and panic-free: for every data object and
    every schema it returns nil or an error, never a panic, and so does the
    type check for every value and every kind; a schema entry whose value
    is not a mapping is skipped, so that the result is that of the schema
    without the entry. *)
Theorem validator_total_and_skips_non_mappings :
  (forall data schema : Map,
      validateDataAgainstSchema data schema = Nil
      \/ exists msg, validateDataAgainstSchema data schema = Error msg)
  /\ (forall (fieldName : string) (value : Value) (kind : string),
         validateFieldType fieldName value kind = Nil
         \/ exists msg, validateFieldType fieldName value kind = Error msg)
  /\ (forall (data pre : Map) (field : string) (entry : Value) (post : Map),
         assertMap entry = None ->
         validateDataAgainstSchema data (pre ++ (field, entry) :: post) =
         validateDataAgainstSchema data (pre ++ post)).
Proof.
  split; [|split].
  - intros data schema. apply outcome_cases.
    apply validateDataAgainstSchema_no_panic.
  - intros fieldName value kind. apply outcome_cases.
    apply validateFieldType_no_panic.
  - intros data pre field entry post Hentry.
    rewrite !validateDataAgainstSchema_app, validateDataAgainstSchema_cons.
    rewrite (validateField_not_map _ _ _ _ Hentry). reflexivity.
Qed.

(** ** The data read by the validator *)

Lemma validateField_ext (data data' : Map) (field : string)
      (fieldSchema : Value) (continue : outcome) :
  lookup data field = lookup data' field ->
  validateField data field fieldSchema continue =
  validateField data' field fieldSchema continue.
Proof. unfold validateField. intros ->. reflexivity. Qed.

Lemma lookup_cons_other (data : Map) (key field : string) (v : Value) :
  key <> field -> lookup ((key, v) :: data) field = lookup data field.
Proof.
  intros Hne. simpl. destruct (String.eqb_spec key field); [contradiction|].
  reflexivity.
Qed.

Lemma validate_agree (schema data data' : Map) :
  (forall field, In field (keys schema) ->
                 lookup data field = lookup data' field) ->
  validateDataAgainstSchema data schema = validateDataAgainstSchema data' schema.
Proof.
  induction schema as [|[field fieldSchema] rest IH]; intros Hagree.
  - reflexivity.
  - rewrite !validateDataAgainstSchema_cons.
    rewrite IH by (intros f Hf; apply Hagree; right; exact Hf).
    apply validateField_ext. apply Hagree. left. reflexivity.
Qed.

(** C9. The result of the validator depends only on the restriction of the
    data object to the fields the schema names: two data objects that agree
    on every field named in the schema get the same result.  In particular
    a data field that the schema does not declare is ignored: adding it
    changes nothing. *)
Theorem validate_reads_declared_fields_only :
  (forall schema data data' : Map,
      (forall field, In field (keys schema) ->
                     lookup data field = lookup data' field) ->
      validateDataAgainstSchema data schema =
      validateDataAgainstSchema data' schema)
  /\ (forall (schema data : Map) (extra : string) (v : Value),
         ~ In extra (keys schema) ->
         validateDataAgainstSchema ((extra, v) :: data) schema =
         validateDataAgainstSchema data schema).
Proof.
  split.
  - exact validate_agree.
  - intros schema data extra v Hnot. apply validate_agree.
    intros field Hin. apply lookup_cons_other.
    intros ->. contradiction.
Qed.

(** ** Required fields *)

Lemma required_field_missing (data pre : Map) (field : string)
      (fieldInfo post : Map) :
  index fieldInfo "required" = VBool true ->
  lookup data field = None ->
  validateDataAgainstSchema data (pre ++ post) = Nil ->
  validateDataAgainstSchema data (pre ++ (field, VMap fieldInfo) :: post) =
  Error ("required field '" ++ field ++ "' is missing").
Proof.
  intros Hreq Habsent Hothers.
  rewrite validateDataAgainstSchema_app in *.
  destruct (validateDataAgainstSchema data pre); try discriminate.
  rewrite validateDataAgainstSchema_cons, validateField_absent by assumption.
  rewrite Hreq. reflexivity.
Qed.

(** C2. When the schema marks a field as required and the data object lacks
    it, with every other field valid, the validator fails with the message
    [required field 'f' is missing]; when the field is absent and not
    required, it is skipped and contributes no error.  The schema with a
    required [name] and an optional [age], in either order of iteration,
    and the data [{"age": 25}] give the error for [name]. *)
Theorem missing_required_field :
  (forall (data pre : Map) (field : string) (fieldInfo post : Map),
      index fieldInfo "required" = VBool true ->
      lookup data field = None ->
      validateDataAgainstSchema data (pre ++ post) = Nil ->
      validateDataAgainstSchema data (pre ++ (field, VMap fieldInfo) :: post) =
      Error ("required field '" ++ field ++ "' is missing"))
  /\ (forall (data pre : Map) (field : string) (fieldInfo post : Map),
         boolOrZero (index fieldInfo "required") = false ->
         lookup data field = None ->
         validateDataAgainstSchema data (pre ++ (field, VMap fieldInfo) :: post) =
         validateDataAgainstSchema data (pre ++ post))
  /\ validateDataAgainstSchema dataAge25 schemaNameAge =
     Error "required field 'name' is missing"
  /\ validateDataAgainstSchema dataAge25 schemaAgeName =
     Error "required field 'name' is missing".
Proof.
  split; [|split; [|split; reflexivity]].
  - exact required_field_missing.
  - intros data pre field fieldInfo post Hreq Habsent.
    rewrite !validateDataAgainstSchema_app, validateDataAgainstSchema_cons.
    rewrite validateField_absent by assumption.
    rewrite Hreq. reflexivity.
Qed.

(** ** Nested objects *)

Lemma validateFieldType_object (fieldName : string) (value : Value) :
  validateFieldType fieldName value "object" = Nil ->
  exists object, value = VMap object.
Proof.
  unfold validateFieldType, Errorf1.
  destruct value; simpl; try discriminate. intros _. eexists. reflexivity.
Qed.

Lemma nestedSchema_properties (fieldInfo ns : Map) :
  index fieldInfo "properties" = VMap ns -> nestedSchema fieldInfo = Some ns.
Proof. unfold nestedSchema. intros ->. reflexivity. Qed.

Lemma nestedSchema_schema (fieldInfo ns : Map) :
  lookup fieldInfo "properties" = None ->
  index fieldInfo "schema" = VMap ns -> nestedSchema fieldInfo = Some ns.
Proof. unfold nestedSchema, index. intros -> ->. reflexivity. Qed.

(** The step at an object field with a nested schema whose value is a
    map. *)
Lemma validateField_nested (data : Map) (field : string)
      (fieldInfo object ns : Map) (continue : outcome) :
  index fieldInfo "type" = VString "object" ->
  nestedSchema fieldInfo = Some ns ->
  lookup data field = Some (VMap object) ->
  validateField data field (VMap fieldInfo) continue =
  match validateDataAgainstSchema object ns with
  | Nil => continue
  | Error err =>
      Error ("object field '" ++ field ++ "' validation failed: " ++ err)
  | Panic => Panic
  end.
Proof.
  intros Hty Hns Hval. unfold validateField.
  change (assertMap (VMap fieldInfo)) with (Some fieldInfo). cbv beta iota.
  rewrite Hty, Hns, Hval. reflexivity.
Qed.

Lemma nested_validation (data pre : Map) (field : string)
      (fieldInfo post object ns : Map) :
  index fieldInfo "type" = VString "object" ->
  nestedSchema fieldInfo = Some ns ->
  lookup data field = Some (VMap object) ->
  validateDataAgainstSchema data pre = Nil ->
  validateDataAgainstSchema data (pre ++ (field, VMap fieldInfo) :: post) =
  match validateDataAgainstSchema object ns with
  | Nil => validateDataAgainstSchema data post
  | Error err =>
      Error ("object field '" ++ field ++ "' validation failed: " ++ err)
  | Panic => Panic
  end.
Proof.
  intros Hty Hns Hval Hpre.
  rewrite validateDataAgainstSchema_app, Hpre, validateDataAgainstSchema_cons.
  apply validateField_nested; assumption.
Qed.

(** C6. An object field carries a nested schema under [properties], or
    under [schema] when [properties] is absent, and [properties] wins when
    both are there.  At such a field, with the fields visited before it
    valid and a map as its value, the validator validates the value against
    the nested schema: when that succeeds it goes on with the fields that
    remain, and when it fails the error is returned wrapped as
    [object field 'f' validation failed: <inner message>].  A required
    nested field that the value lacks gives the wrapped missing-field
    error, as for [user_info] without [first_name]. *)
Theorem nested_object_is_validated_and_wrapped :
  (forall fieldInfo ns : Map,
      index fieldInfo "properties" = VMap ns ->
      nestedSchema fieldInfo = Some ns)
  /\ (forall fieldInfo ns : Map,
         lookup fieldInfo "properties" = None ->
         index fieldInfo "schema" = VMap ns ->
         nestedSchema fieldInfo = Some ns)
  /\ (forall (data pre : Map) (field : string) (fieldInfo post object ns : Map),
         index fieldInfo "type" = VString "object" ->
         nestedSchema fieldInfo = Some ns ->
         lookup data field = Some (VMap object) ->
         validateDataAgainstSchema data pre = Nil ->
         (validateDataAgainstSchema object ns = Nil ->
          validateDataAgainstSchema data (pre ++ (field, VMap fieldInfo) :: post)
          = validateDataAgainstSchema data post)
         /\ (forall inner,
                validateDataAgainstSchema object ns = Error inner ->
                validateDataAgainstSchema data
                  (pre ++ (field, VMap fieldInfo) :: post)
                = Error ("object field '" ++ field
                         ++ "' validation failed: " ++ inner))
         /\ (forall (npre : Map) (nfield : string) (nfieldInfo npost : Map),
                ns = npre ++ (nfield, VMap nfieldInfo) :: npost ->
                index nfieldInfo "required" = VBool true ->
                lookup object nfield = None ->
                validateDataAgainstSchema object (npre ++ npost) = Nil ->
                validateDataAgainstSchema data
                  (pre ++ (field, VMap fieldInfo) :: post)
                = Error ("object field '" ++ field
                         ++ "' validation failed: "
                         ++ "required field '" ++ nfield ++ "' is missing")))
  /\ validateDataAgainstSchema dataUserInfoNoFirstName schemaUserInfo =
     Error ("object field 'user_info' validation failed: "
            ++ "required field 'first_name' is missing").
Proof.
  split; [exact nestedSchema_properties|].
  split; [exact nestedSchema_schema|].
  split; [|reflexivity].
  intros data pre field fieldInfo post object ns Hty Hns Hval Hpre.
  pose proof (nested_validation data pre field fieldInfo post object ns
                Hty Hns Hval Hpre) as Heq.
  split; [|split].
  - intros Hnested. rewrite Heq, Hnested. reflexivity.
  - intros inner Hnested. rewrite Heq, Hnested. reflexivity.
  - intros npre nfield nfieldInfo npost -> Hreq Habsent Hothers.
    rewrite Heq.
    rewrite (required_field_missing object npre nfield nfieldInfo npost
               Hreq Habsent Hothers).
    reflexivity.
Qed.

(** ** The fallback of the nested branch *)

Lemma list_ascii_of_string_app (s1 s2 : string) :
  list_ascii_of_string (s1 ++ s2) =
  (list_ascii_of_string s1 ++ list_ascii_of_string s2)%list.
Proof. induction s1 as [|c s1 IH]; simpl; [|rewrite IH]; reflexivity. Qed.

Lemma list_ascii_of_string_length (s : string) :
  List.length (list_ascii_of_string s) = String.length s.
Proof. induction s as [|c s IH]; simpl; [|rewrite IH]; reflexivity. Qed.

Lemma lastTwo_app (s1 s2 : string) :
  (2 <= String.length s2)%nat -> lastTwo (s1 ++ s2) = lastTwo s2.
Proof.
  intros Hlen. unfold lastTwo.
  rewrite list_ascii_of_string_app, rev_app_distr, firstn_app.
  rewrite length_rev, list_ascii_of_string_length.
  replace (2 - String.length s2)%nat with O by lia.
  simpl. apply app_nil_r.
Qed.

Lemma lastTwo_message (before arg after : string) :
  (2 <= String.length after)%nat ->
  lastTwo (before ++ arg ++ after) = lastTwo after.
Proof.
  intros Hlen. rewrite lastTwo_app.
  - apply lastTwo_app. exact Hlen.
  - rewrite <- !list_ascii_of_string_length in *.
    rewrite list_ascii_of_string_app, length_app. lia.
Qed.

Ltac differ_in_last_bytes H :=
  apply (f_equal errorTail) in H;
  unfold errorTail, nestedFallbackMessage in H;
  rewrite !lastTwo_message in H by (simpl; lia);
  vm_compute in H; discriminate H.

Lemma validateFieldType_not_fallback (fieldName : string) (value : Value)
      (expectedType msg field : string) :
  validateFieldType fieldName value expectedType = Error msg ->
  msg <> nestedFallbackMessage field.
Proof.
  unfold validateFieldType, Errorf1. intros H Heq. subst msg.
  destruct (isNil value).
  - destruct (_ =? _)%string; [discriminate|].
    differ_in_last_bytes H.
  - repeat match type of H with
           | context [if ?c then _ else _] => destruct c
           | context [match reflect.TypeOf value with _ => _ end] =>
               destruct (reflect.TypeOf value)
           | context [match assertString ?v with _ => _ end] =>
               destruct (assertString v)
           | context [match assertBool ?v with _ => _ end] =>
               destruct (assertBool v)
           | context [match assertMap ?v with _ => _ end] =>
               destruct (assertMap v)
           end;
      try discriminate;
      try (differ_in_last_bytes H);
      destruct value; try discriminate;
      try (differ_in_last_bytes H);
      match type of H with context [if ?c then _ else _] => destruct c end;
      try discriminate; differ_in_last_bytes H.
Qed.

(** C10. When the nested-object branch is reached the type of the field is
    [object] and the type check has succeeded, so the value is a map: the
    fallback error [field 'f' must be an object for nested validation] is
    unreachable, and the validator returns that message for no input. *)
Theorem nested_fallback_unreachable :
  (forall (fieldName : string) (value : Value),
      validateFieldType fieldName value "object" = Nil ->
      exists object, value = VMap object /\ nestedDataOf value = Some object)
  /\ (forall (data schema : Map) (field : string),
         validateDataAgainstSchema data schema <>
         Error ("field '" ++ field
                ++ "' must be an object for nested validation")).
Proof.
  split.
  - intros fieldName value H.
    destruct (validateFieldType_object _ _ H) as [object ->].
    exists object. split; reflexivity.
  - intros data schema target.
    change (validateDataAgainstSchema data schema
            <> Error (nestedFallbackMessage target)).
    induction schema as [|[field fieldSchema] rest IH]; [discriminate|].
    rewrite validateDataAgainstSchema_cons. unfold validateField.
    destruct (assertMap fieldSchema) as [fieldInfo|]; [|exact IH].
    destruct (lookup data field) as [value|].
    + destruct (validateFieldType field value _) as [|msg|] eqn:Hty.
      * destruct (_ =? "object")%string eqn:Hobj; [|exact IH].
        apply String.eqb_eq in Hobj. rewrite Hobj in Hty.
        destruct (validateFieldType_object _ _ Hty) as [object ->].
        destruct (nestedSchema fieldInfo) as [ns|]; [|exact IH].
        change (nestedDataOf (VMap object)) with (Some object). cbv beta iota.
        destruct (validateDataAgainstSchema object ns);
          [exact IH | | discriminate].
        unfold nestedFallbackMessage. simpl. discriminate.
      * intros [= Heq]. exact (validateFieldType_not_fallback _ _ _ _ _ Hty Heq).
      * discriminate.
    + destruct (boolOrZero _); [|exact IH].
      unfold Errorf1, nestedFallbackMessage. simpl. discriminate.
Qed.

(** ** Data that satisfies the schema *)

Local Abbreviation spec_classify :=
  (spec_classify time_Parse strconv_ParseInt).

Lemma spec_kind_type (node : Map) :
  spec_kind node = stringOrZero (index node "type").
Proof.
  unfold spec_kind, index.
  destruct (lookup node "type") as [v|]; [destruct v|]; reflexivity.
Qed.

Lemma spec_required_required (node : Map) :
  spec_required node = boolOrZero (index node "required").
Proof.
  unfold spec_required, index.
  destruct (lookup node "required") as [v|]; [destruct v|]; reflexivity.
Qed.

Lemma spec_nested_nestedSchema (node : Map) :
  spec_nested node = nestedSchema node.
Proof.
  unfold spec_nested, nestedSchema, index.
  destruct (lookup node "properties") as [v|]; [destruct v|];
    try reflexivity;
    destruct (lookup node "schema") as [w|]; try destruct w; reflexivity.
Qed.

Ltac kind_cases H :=
  repeat match type of H with
         | (_ || _)%bool = true =>
             apply orb_true_iff in H; destruct H as [H|H]
         | (_ && _)%bool = true =>
             let H' := fresh "Hparse" in
             apply andb_true_iff in H; destruct H as [H H']
         | (_ =? _)%string = true => apply String.eqb_eq in H; subst
         end.

(** A value of a kind, in the words of the specification, passes the type
    check of the code. *)
Lemma spec_classify_sound (fieldName : string) (value : Value)
      (kind : string) :
  spec_classify value kind = true ->
  validateFieldType fieldName value kind = Nil.
Proof.
  intros H.
  destruct value; unfold spec_classify in H; try discriminate H;
    kind_cases H;
    unfold validateFieldType, isValidISODateString, layouts, GoTime.RFC3339,
      GoTime.RFC3339Nano;
    unfold spec_layouts in *; simpl;
    try reflexivity;
    match goal with
    | Hp : _ = true |- _ => simpl in Hp; rewrite Hp; reflexivity
    end.
Qed.

Lemma spec_classify_object (value : Value) :
  spec_classify value "object" = true -> exists object, value = VMap object.
Proof.
  destruct value; simpl; try discriminate. intros _. eexists. reflexivity.
Qed.

(** C1. A data object that supplies, for each field the schema declares, a
    value of the declared kind that satisfies the declared constraints
    (whatever it means to satisfy them), nested schemas included, is
    accepted: the validator returns nil.  So is one that leaves out fields
    that are not required. *)
Theorem satisfying_data_is_accepted :
  forall (in_bounds : Map -> Value -> bool) (data schema : Map),
    spec_satisfies time_Parse strconv_ParseInt in_bounds data schema ->
    validateDataAgainstSchema data schema = Nil.
Proof.
  intros in_bounds data schema H.
  induction H as [data
                 | data field node rest Habsent Hopt Hrest IHrest
                 | data field node rest value Hval Hkind Hbounds
                        Hnested IHnested Hrest IHrest].
  - reflexivity.
  - rewrite validateDataAgainstSchema_cons, validateField_absent by assumption.
    rewrite <- spec_required_required, Hopt. exact IHrest.
  - rewrite validateDataAgainstSchema_cons. unfold validateField.
    change (assertMap (VMap node)) with (Some node). cbv beta iota zeta.
    rewrite Hval, <- spec_kind_type.
    rewrite (spec_classify_sound field value _ Hkind).
    destruct (spec_kind node =? "object")%string eqn:Hobj; [|exact IHrest].
    apply String.eqb_eq in Hobj.
    rewrite <- spec_nested_nestedSchema.
    destruct (spec_nested node) as [nested|] eqn:Hns; [|exact IHrest].
    rewrite Hobj in Hkind.
    destruct (spec_classify_object value Hkind) as [object ->].
    change (nestedDataOf (VMap object)) with (Some object). cbv beta iota.
    rewrite (IHnested nested object Hobj eq_refl eq_refl).
    exact IHrest.
Qed.

(** ** The keys of a schema node that the validator reads *)

(** A step reads [required], [type], [properties] and [schema] of the
    schema node and nothing else: a further key, such as a constraint or
    [items], does not change what it returns. *)
Lemma validateField_ignores_other_keys (data : Map) (field key : string)
      (bound : Value) (fieldInfo : Map) (continue : outcome) :
  ~ In key ["required"; "type"; "properties"; "schema"] ->
  validateField data field (VMap ((key, bound) :: fieldInfo)) continue =
  validateField data field (VMap fieldInfo) continue.
Proof.
  intros Hkey.
  assert (Hindex : forall k, In k ["required"; "type"; "properties"; "schema"] ->
                             index ((key, bound) :: fieldInfo) k
                             = index fieldInfo k).
  { intros k Hk. unfold index. rewrite lookup_cons_other; [reflexivity|].
    intros ->. contradiction. }
  unfold validateField, nestedSchema.
  change (assertMap (VMap ((key, bound) :: fieldInfo)))
    with (Some ((key, bound) :: fieldInfo)).
  change (assertMap (VMap fieldInfo)) with (Some fieldInfo).
  cbv beta iota zeta.
  rewrite !Hindex by (simpl; tauto). reflexivity.
Qed.

(** A slice is an array, whatever its elements. *)
Lemma validateFieldType_slice (fieldName : string) (elems : list Value) :
  validateFieldType fieldName (VSlice elems) "array" = Nil.
Proof. reflexivity. Qed.

(** ** Dates *)

Lemma isValidISODateString_layout (s : string) :
  isValidISODateString time_Parse s = true <->
  exists layout, In layout layouts /\ time_Parse layout s = true.
Proof. unfold isValidISODateString. apply existsb_exists. Qed.

Lemma validateFieldType_date (fieldName : string) (value : Value) :
  validateFieldType fieldName value "date" = Nil <->
  isNativeTemporal value = true
  \/ exists s, value = VString s
               /\ exists layout, In layout layouts
                                 /\ time_Parse layout s = true.
Proof.
  unfold validateFieldType, Errorf1.
  destruct value; simpl;
    try (split; [discriminate | intros [H|(s0 & H & _)]; discriminate]);
    try (split; [left; reflexivity | reflexivity]).
  destruct (isValidISODateString time_Parse s) eqn:Hs; simpl; split.
  - intros _. right. exists s. split; [reflexivity|].
    apply isValidISODateString_layout. exact Hs.
  - reflexivity.
  - discriminate.
  - intros [H|(s0 & [= <-] & Hl)]; [discriminate|].
    apply isValidISODateString_layout in Hl. congruence.
Qed.

End ValidatorFacts.

(* ================================================================== *)
(** * Dates, with time.Parse as modelled *)
(* ================================================================== *)

Lemma layouts_are_chunked :
  map GoTime.chunks layouts =
  let date :=
    [ (EmptyString, Some GoTime.stdLongYear); ("-", Some GoTime.stdZeroMonth);
      ("-", Some GoTime.stdZeroDay) ] in
  let clock (sep : string) :=
    [ (sep, Some GoTime.stdHour); (":", Some GoTime.stdZeroMinute);
      (":", Some GoTime.stdZeroSecond) ] in
  let zone := [ (EmptyString, Some GoTime.stdISO8601ColonTZ) ] in
  let done := [ (EmptyString, None) ] in
  [ date ++ clock "T" ++ zone ++ done;
    date ++ clock "T" ++ [ (EmptyString, Some GoTime.stdFracSecond9) ]
         ++ zone ++ done;
    date ++ done;
    date ++ clock " " ++ done;
    date ++ clock "T" ++ done;
    date ++ clock "T" ++ zone ++ done ].
Proof. reflexivity. Qed.

Lemma slashed_date_matches_no_layout :
  forall layout, In layout layouts -> GoTime.Parse layout "08/09/2024" = false.
Proof.
  intros layout Hin. simpl in Hin.
  repeat (destruct Hin as [<- | Hin]; [vm_compute; reflexivity|]).
  contradiction.
Qed.

(** C7. A value is of kind date iff it is a native temporal value
    ([time.Time] or [primitive.DateTime]) or a string that one of the six
    accepted layouts parses, so a string that no layout parses is a
    mismatch; ["2024-08-09T12:00:00Z"] and ["2024-08-09"] are dates,
    ["08/09/2024"], which no layout parses, is not. *)
Theorem date_classification :
  (forall (time_Parse : string -> string -> bool)
          (strconv_ParseInt : string -> bool)
          (fieldName : string) (value : Value),
      validateFieldType time_Parse strconv_ParseInt fieldName value "date"
      = Nil
      <-> isNativeTemporal value = true
          \/ exists s, value = VString s
                       /\ exists layout, In layout layouts
                                         /\ time_Parse layout s = true)
  /\ layouts =
     [ "2006-01-02T15:04:05Z07:00"; "2006-01-02T15:04:05.999999999Z07:00";
       "2006-01-02"; "2006-01-02 15:04:05"; "2006-01-02T15:04:05";
       "2006-01-02T15:04:05Z07:00" ]
  /\ (forall fieldName,
         goValidateFieldType fieldName (VString "2024-08-09T12:00:00Z") "date"
         = Nil)
  /\ (forall fieldName,
         goValidateFieldType fieldName (VString "2024-08-09") "date" = Nil)
  /\ (forall layout, In layout layouts ->
                      GoTime.Parse layout "08/09/2024" = false)
  /\ (forall fieldName,
         goValidateFieldType fieldName (VString "08/09/2024") "date"
         = Error ("field '" ++ fieldName
                  ++ "' must be a valid ISO date string (e.g., RFC3339)"))
  /\ (forall fieldName t,
         goValidateFieldType fieldName (VTime t) "date" = Nil
         /\ goValidateFieldType fieldName (VDateTime t) "date" = Nil).
Proof.
  split; [exact validateFieldType_date|].
  split; [reflexivity|].
  split; [|split; [|split; [exact slashed_date_matches_no_layout | split]]].
  - intros fieldName. apply validateFieldType_date. right.
    exists "2024-08-09T12:00:00Z". split; [reflexivity|].
    exists GoTime.RFC3339. split; [left; reflexivity | vm_compute; reflexivity].
  - intros fieldName. apply validateFieldType_date. right.
    exists "2024-08-09". split; [reflexivity|].
    exists "2006-01-02".
    split; [right; right; left; reflexivity | vm_compute; reflexivity].
  - intros fieldName. reflexivity.
  - intros fieldName t. split; reflexivity.
Qed.

Lemma date_classification_witness :
  goValidateFieldType "signup_date" (VString "2024-02-29 23:59:59") "date"
  = Nil.
Proof.
  apply (proj1 date_classification GoTime.Parse GoStrconv.ParseInt).
  right. exists "2024-02-29 23:59:59". split; [reflexivity|].
  exists "2006-01-02 15:04:05".
  split; [simpl; tauto | vm_compute; reflexivity].
Defined.

(* ================================================================== *)
(** * The validator at the data of the documentation *)
(* ================================================================== *)

Lemma satisfying_data_is_accepted_witness :
  spec_satisfies GoTime.Parse GoStrconv.ParseInt declaredBoundsHold
    (dataJane25 ++ dataUserInfo) (schemaUserInfo ++ schemaAgeName)
  /\ goValidate (dataJane25 ++ dataUserInfo) (schemaUserInfo ++ schemaAgeName)
     = Nil.
Proof.
  assert (Hsat : spec_satisfies GoTime.Parse GoStrconv.ParseInt
                   declaredBoundsHold (dataJane25 ++ dataUserInfo)
                   (schemaUserInfo ++ schemaAgeName)).
  { apply satisfies_cons with
      (value := VMap [("first_name", VString "Jane");
                      ("last_name", VString "Doe")]);
      [reflexivity | reflexivity | reflexivity | |].
    - intros nested object _ [= <-] [= <-].
      apply satisfies_cons with (value := VString "Jane");
        [reflexivity | reflexivity | reflexivity | discriminate |].
      apply satisfies_cons with (value := VString "Doe");
        [reflexivity | reflexivity | reflexivity | discriminate |].
      apply satisfies_absent; [reflexivity | reflexivity |].
      apply satisfies_nil.
    - apply satisfies_cons with (value := VFloat64 float64_25);
        [reflexivity | reflexivity | vm_compute; reflexivity | discriminate |].
      apply satisfies_cons with (value := VString "Jane");
        [reflexivity | reflexivity | reflexivity | discriminate |].
      apply satisfies_nil. }
  split; [exact Hsat|].
  exact (satisfying_data_is_accepted GoTime.Parse GoStrconv.ParseInt
           declaredBoundsHold _ _ Hsat).
Defined.

Lemma missing_required_field_witness :
  index [("type", VString "string"); ("required", VBool true)] "required"
  = VBool true
  /\ lookup dataAge25 "name" = None
  /\ goValidate dataAge25 ([ageField] ++ []) = Nil
  /\ goValidate dataAge25 ([ageField] ++ nameField :: [])
     = Error "required field 'name' is missing".
Proof.
  repeat (split; [reflexivity|]).
  apply (proj1 (missing_required_field GoTime.Parse GoStrconv.ParseInt));
    reflexivity.
Defined.

Lemma nested_object_is_validated_and_wrapped_witness :
  nestedSchema
    [("type", VString "object"); ("schema", VMap userInfoProperties)]
  = Some userInfoProperties
  /\ goValidate [("user_info", VMap [("first_name", VBool true)])]
       [("user_info",
         VMap [("type", VString "object");
               ("schema", VMap userInfoProperties)])]
     = Error ("object field 'user_info' validation failed: "
              ++ "field 'first_name' must be a string").
Proof.
  split.
  - apply (proj1 (proj2 (nested_object_is_validated_and_wrapped
                           GoTime.Parse GoStrconv.ParseInt)));
      reflexivity.
  - apply (proj1 (proj2 (proj1 (proj2 (proj2
             (nested_object_is_validated_and_wrapped
                GoTime.Parse GoStrconv.ParseInt)))
             [("user_info", VMap [("first_name", VBool true)])] []
             "user_info"
             [("type", VString "object");
              ("schema", VMap userInfoProperties)]
             [] [("first_name", VBool true)] userInfoProperties
             eq_refl eq_refl eq_refl eq_refl)));
      reflexivity.
Defined.

Lemma validator_total_and_skips_non_mappings_witness :
  assertMap (VSlice [VString "type"; VString "string"]) = None
  /\ goValidate dataAge25
       ([ageField] ++ ("name", VSlice [VString "type"; VString "string"])
                   :: [nameField])
     = goValidate dataAge25 ([ageField] ++ [nameField]).
Proof.
  split; [reflexivity|].
  apply (proj2 (proj2 (validator_total_and_skips_non_mappings
                         GoTime.Parse GoStrconv.ParseInt))).
  reflexivity.
Defined.

Lemma validate_reads_declared_fields_only_witness :
  ~ In "nickname" (keys schemaNameAge)
  /\ goValidate (("nickname", VString "ally") :: dataJane25) schemaNameAge
     = goValidate dataJane25 schemaNameAge.
Proof.
  assert (Hnot : ~ In "nickname" (keys schemaNameAge)).
  { simpl. intros [H|[H|[]]]; discriminate H. }
  split; [exact Hnot|].
  exact (proj2 (validate_reads_declared_fields_only
                  GoTime.Parse GoStrconv.ParseInt)
               schemaNameAge dataJane25 "nickname" (VString "ally") Hnot).
Defined.

Lemma nested_fallback_unreachable_witness :
  goValidateFieldType "user_info" (VMap [("last_name", VString "Doe")])
    "object" = Nil
  /\ exists object,
      VMap [("last_name", VString "Doe")] = VMap object
      /\ nestedDataOf (VMap [("last_name", VString "Doe")]) = Some object.
Proof.
  split; [reflexivity|].
  apply (proj1 (nested_fallback_unreachable GoTime.Parse GoStrconv.ParseInt)
               "user_info").
  reflexivity.
Defined.

(* ================================================================== *)
(** * What the validator and the handlers leave unchecked *)
(* ================================================================== *)

(** C3. The documentation gives a number field the constraints [minimum]
    and [maximum]; the validator does not read them.  The lead
    [{"name":"Jane","age":-5}] breaks the bound [minimum: 0] on [age] and
    is accepted, whatever the order in which the schema is visited. *)
Theorem minimum_is_not_enforced :
  option_map Qred (numberValue (VFloat64 float64_neg5)) = Some (-5 # 1)%Q
  /\ declaredBoundsHold [("type", VString "number"); ("required", VBool false);
                         ("minimum", VFloat64 float64_0)]
       (VFloat64 float64_neg5) = false
  /\ goValidate dataJaneNeg5 schemaNameAge = Nil
  /\ goValidate dataJaneNeg5 schemaAgeName = Nil.
Proof.
  split; [vm_compute; reflexivity|].
  split; [vm_compute; reflexivity|].
  split; reflexivity.
Qed.

(** C4. The documentation has every element of an array validated against
    [items]; the validator checks only that the value is a slice.  The lead
    [{"interests": ["tech", "sales", 42]}] has a number at index 2 under
    [items: "string"] and is accepted. *)
Theorem array_items_are_not_validated :
  index [("type", VString "array"); ("required", VBool false);
         ("items", VString "string")] "items" = VString "string"
  /\ nth_error [VString "tech"; VString "sales"; VFloat64 float64_42] 2
     = Some (VFloat64 float64_42)
  /\ goValidateFieldType "interests" (VFloat64 float64_42) "string"
     = Error "field 'interests' must be a string"
  /\ goValidate dataInterests schemaInterests = Nil.
Proof. repeat split; reflexivity. Qed.

(** C5. The documentation has a schema definition validated when a product
    is created or updated; the handlers store the schema they are given.
    [malformedSchema] breaks the rules for a schema definition, yet
    [CreateProduct] and [UpdateProduct] answer with the product and store
    it, and a lead is then validated against it and stored: a string passes
    for the unknown type [integer]. *)
Theorem malformed_schema_is_stored :
  let product :=
    mkProduct "p1" "Broken" "malformed schema" malformedSchema 1 2 in
  let updated := mkProduct "p1" "Fine" "" malformedSchema 1 5 in
  let lead := mkLead "l1" "p1" [("$set.x", VString "not an integer")] 3 4 in
  spec_schemaDefinitionOk malformedSchema = false
  /\ CreateProduct emptyDB "p1" 1 2 malformedProductRequest
     = (mkDB [product] [], Response product)
  /\ UpdateProduct (mkDB [mkProduct "p1" "Fine" "" schemaNameAge 1 1] []) 5
       (mkUpdateProductRequest "p1" "Fine" "" malformedSchema)
     = (mkDB [updated] [], Response updated)
  /\ goCreateLead (mkDB [product] []) "l1" 3 4
       (mkCreateLeadRequest "p1" [("$set.x", VString "not an integer")])
     = (mkDB [product] [lead], Response lead).
Proof. repeat split; reflexivity. Qed.

(** The handlers store every schema: the product that [CreateProduct]
    inserts carries the schema of the request as it is. *)
Lemma CreateProduct_stores_any_schema (db : DB) (newID : string)
      (now1 now2 : Z) (req : CreateProductRequest) :
  findProduct (productCollection db) newID = None ->
  exists product,
    Schema product = reqSchema req
    /\ CreateProduct db newID now1 now2 req
       = (mkDB (productCollection db ++ [product]) (leadCollection db),
          Response product).
Proof.
  intros Hfresh. eexists. split; [|unfold CreateProduct, insertProduct].
  2: { simpl. rewrite Hfresh. reflexivity. }
  reflexivity.
Qed.


(* ================================================================== *)
(** * Further properties of the validator *)
(* ================================================================== *)

Section ValidatorOrder.

Variable time_Parse : string -> string -> bool.
Variable strconv_ParseInt : string -> bool.

Local Abbreviation validateFieldType :=
  (validateFieldType time_Parse strconv_ParseInt).
Local Abbreviation validateDataAgainstSchema :=
  (validateDataAgainstSchema time_Parse strconv_ParseInt).
Local Abbreviation validateField :=
  (validateField time_Parse strconv_ParseInt).

(** What a step returns when the loop has nothing left to visit decides
    the loop. *)
Lemma validate_cons_step (data : Map) (field : string) (fieldSchema : Value)
      (rest : Map) :
  validateDataAgainstSchema data ((field, fieldSchema) :: rest) =
  match validateField data field fieldSchema Nil with
  | Nil => validateDataAgainstSchema data rest
  | err => err
  end.
Proof.
  rewrite validateDataAgainstSchema_cons. apply validateField_continue.
Qed.

Lemma validate_Nil_Forall (data schema : Map) :
  validateDataAgainstSchema data schema = Nil <->
  Forall (fun e => validateField data (fst e) (snd e) Nil = Nil) schema.
Proof.
  induction schema as [|[field fieldSchema] rest IH].
  - split; [constructor | reflexivity].
  - rewrite validate_cons_step. split.
    + intros H. destruct (validateField data field fieldSchema Nil) eqn:E;
        try discriminate.
      constructor; [exact E | apply IH; exact H].
    + intros H. inversion H as [|e l He Hl]; subst. simpl in He.
      rewrite He. apply IH. exact Hl.
Qed.

(** X1. Whether a data object is accepted does not depend on the order in
    which the loop visits the schema: data accepted under a schema is
    accepted under every schema made of entries of it, and so under every
    permutation of it; only which error is reported can change with the
    order. *)
Theorem acceptance_ignores_iteration_order :
  (forall data schema schema' : Map,
      incl schema' schema ->
      validateDataAgainstSchema data schema = Nil ->
      validateDataAgainstSchema data schema' = Nil)
  /\ (forall data schema schema' : Map,
         Permutation schema schema' ->
         (validateDataAgainstSchema data schema = Nil
          <-> validateDataAgainstSchema data schema' = Nil)).
Proof.
  assert (Hincl : forall data schema schema' : Map,
             incl schema' schema ->
             validateDataAgainstSchema data schema = Nil ->
             validateDataAgainstSchema data schema' = Nil).
  { intros data schema schema' Hsub H.
    apply validate_Nil_Forall. apply validate_Nil_Forall in H.
    rewrite Forall_forall in *. intros e He. apply H, Hsub, He. }
  split; [exact Hincl|].
  intros data schema schema' Hperm. split; apply Hincl; intros e He.
  - apply Permutation_in with (l := schema'); [symmetry|]; assumption.
  - apply Permutation_in with (l := schema); assumption.
Qed.

Lemma validate_Error_split :
  forall (data schema : Map) (msg : string),
    validateDataAgainstSchema data schema = Error msg <->
    exists (pre : Map) (field : string) (fieldSchema : Value) (post : Map),
      schema = pre ++ (field, fieldSchema) :: post
      /\ validateDataAgainstSchema data pre = Nil
      /\ validateField data field fieldSchema Nil = Error msg.
Proof.
  intros data schema msg. split.
  - induction schema as [|[field fieldSchema] rest IH]; [discriminate|].
    rewrite validate_cons_step.
    destruct (validateField data field fieldSchema Nil) as [|m|] eqn:E;
      [|intros [= ->]|discriminate].
    + intros H. destruct (IH H) as (pre & f & fs & post & -> & Hpre & Hf).
      exists ((field, fieldSchema) :: pre), f, fs, post.
      split; [reflexivity|]. split; [|exact Hf].
      rewrite validate_cons_step, E. exact Hpre.
    + exists [], field, fieldSchema, rest. repeat split. exact E.
  - intros (pre & field & fieldSchema & post & -> & Hpre & Hf).
    rewrite validateDataAgainstSchema_app, Hpre, validate_cons_step, Hf.
    reflexivity.
Qed.

(** X2. Fail-fast: the validator returns an error exactly when some entry
    fails with that error after every entry visited before it has passed;
    the error is that of the first failing entry. *)
Theorem first_failing_entry_is_reported :
  forall (data schema : Map) (msg : string),
    validateDataAgainstSchema data schema = Error msg <->
    exists (pre : Map) (field : string) (fieldSchema : Value) (post : Map),
      schema = pre ++ (field, fieldSchema) :: post
      /\ validateDataAgainstSchema data pre = Nil
      /\ validateField data field fieldSchema Nil = Error msg.
Proof. exact validate_Error_split. Qed.

(** X3. The empty data object is accepted exactly when no entry of the
    schema is a mapping marked required; when it is rejected, the error is
    the missing-field error of such an entry. *)
Theorem empty_data_object :
  forall schema : Map,
    (validateDataAgainstSchema [] schema = Nil <->
     Forall (fun e => forall fieldInfo,
                 snd e = VMap fieldInfo ->
                 boolOrZero (index fieldInfo "required") = false) schema)
    /\ (forall msg,
           validateDataAgainstSchema [] schema = Error msg ->
           exists field fieldInfo,
             In (field, VMap fieldInfo) schema
             /\ boolOrZero (index fieldInfo "required") = true
             /\ msg = ("required field '" ++ field ++ "' is missing")%string).
Proof.
  assert (Hstep : forall field fieldSchema,
             validateField [] field fieldSchema Nil =
             match assertMap fieldSchema with
             | Some fieldInfo =>
                 if boolOrZero (index fieldInfo "required")
                 then Error ("required field '" ++ field ++ "' is missing")
                 else Nil
             | None => Nil
             end).
  { intros field fieldSchema. unfold validateField. simpl lookup.
    destruct (assertMap fieldSchema); reflexivity. }
  intros schema. split.
  - rewrite validate_Nil_Forall. split; intros H;
      rewrite Forall_forall in *; intros [field fieldSchema] He;
      specialize (H _ He); simpl in *.
    + intros fieldInfo ->. rewrite Hstep in H. simpl in H.
      destruct (boolOrZero _); [discriminate | reflexivity].
    + rewrite Hstep. destruct fieldSchema; try reflexivity. simpl.
      rewrite (H _ eq_refl). reflexivity.
  - intros msg H. apply validate_Error_split in H.
    destruct H as (pre & field & fieldSchema & post & -> & _ & Hf).
    rewrite Hstep in Hf. destruct fieldSchema; try discriminate.
    simpl in Hf. destruct (boolOrZero (index m "required")) eqn:Hreq;
      [|discriminate].
    injection Hf as <-. exists field, m.
    split; [apply in_elt | split; [exact Hreq | reflexivity]].
Qed.

(** ** Types without a case *)

Lemma unknown_type_eqb (t : string) :
  ~ In t knownTypes ->
  forall k, In k knownTypes -> (t =? k)%string = false.
Proof.
  intros Hnot k Hk. destruct (String.eqb_spec t k); [|reflexivity].
  subst. contradiction.
Qed.

Lemma validateFieldType_unknown (fieldName : string) (value : Value)
      (t : string) :
  ~ In t knownTypes ->
  validateFieldType fieldName value t =
  if isNil value
  then Error ("field '" ++ fieldName ++ "' must not be null")
  else Nil.
Proof.
  intros Hnot. pose proof (unknown_type_eqb t Hnot) as Hk.
  unfold validateFieldType, Errorf1.
  rewrite (Hk "string"), (Hk "number"), (Hk "double"), (Hk "boolean"),
    (Hk "bool"), (Hk "array"), (Hk "object"), (Hk "null"), (Hk "date"),
    (Hk "timestamp") by (simpl; tauto).
  reflexivity.
Qed.

(** X4. The type switch has no default case: under a type that is none of
    the known ones, and so under a schema node without a [type] string,
    every value but the explicit null passes the type check, and a field
    with such a node and a non-null value is passed over. *)
Theorem unknown_type_accepts_every_value :
  (forall (fieldName : string) (value : Value) (t : string),
      ~ In t knownTypes ->
      isNil value = false ->
      validateFieldType fieldName value t = Nil)
  /\ (forall (data : Map) (field : string) (fieldInfo : Map) (value : Value)
             (continue : outcome),
         ~ In (stringOrZero (index fieldInfo "type")) knownTypes ->
         lookup data field = Some value ->
         isNil value = false ->
         validateField data field (VMap fieldInfo) continue = continue)
  /\ (forall (data : Map) (field : string) (fieldInfo : Map) (value : Value)
             (continue : outcome),
         lookup fieldInfo "type" = None ->
         lookup data field = Some value ->
         isNil value = false ->
         validateField data field (VMap fieldInfo) continue = continue).
Proof.
  assert (Hfield : forall data field fieldInfo value continue,
             ~ In (stringOrZero (index fieldInfo "type")) knownTypes ->
             lookup data field = Some value ->
             isNil value = false ->
             validateField data field (VMap fieldInfo) continue = continue).
  { intros data field fieldInfo value continue Hnot Hval Hnil.
    unfold validateField.
    change (assertMap (VMap fieldInfo)) with (Some fieldInfo).
    cbv beta iota zeta.
    rewrite Hval, (validateFieldType_unknown _ _ _ Hnot), Hnil.
    rewrite (unknown_type_eqb _ Hnot "object") by (simpl; tauto).
    reflexivity. }
  split; [|split].
  - intros fieldName value t Hnot Hnil.
    rewrite (validateFieldType_unknown _ _ _ Hnot), Hnil. reflexivity.
  - exact Hfield.
  - intros data field fieldInfo value continue Htype. apply Hfield.
    unfold index. rewrite Htype. simpl.
    intros H. repeat (destruct H as [H|H]; [discriminate H|]). exact H.
Qed.

(** ** The explicit null *)

Lemma validateFieldType_nil (fieldName t : string) :
  validateFieldType fieldName VNil t =
  if (t =? "null")%string then Nil
  else Error ("field '" ++ fieldName ++ "' must not be null").
Proof. reflexivity. Qed.

(** X5. A field that the data object holds with the value null is not a
    missing field: whether required or not, it fails with
    [field 'f' must not be null] unless the type is [null], and under the
    type [null] it passes while every other value fails with
    [field 'f' must be null]. *)
Theorem explicit_null :
  (forall (data pre : Map) (field : string) (fieldInfo post : Map),
      lookup data field = Some VNil ->
      stringOrZero (index fieldInfo "type") <> "null" ->
      validateDataAgainstSchema data pre = Nil ->
      validateDataAgainstSchema data (pre ++ (field, VMap fieldInfo) :: post)
      = Error ("field '" ++ field ++ "' must not be null"))
  /\ (forall (data pre : Map) (field : string) (fieldInfo post : Map)
             (value : Value),
         lookup data field = Some value ->
         index fieldInfo "type" = VString "null" ->
         validateDataAgainstSchema data pre = Nil ->
         validateDataAgainstSchema data (pre ++ (field, VMap fieldInfo) :: post)
         = if isNil value then validateDataAgainstSchema data post
           else Error ("field '" ++ field ++ "' must be null")).
Proof.
  split.
  - intros data pre field fieldInfo post Hval Htype Hpre.
    rewrite validateDataAgainstSchema_app, Hpre,
      validateDataAgainstSchema_cons.
    unfold validateField.
    change (assertMap (VMap fieldInfo)) with (Some fieldInfo).
    cbv beta iota zeta. rewrite Hval, validateFieldType_nil.
    destruct (String.eqb_spec (stringOrZero (index fieldInfo "type")) "null");
      [contradiction | reflexivity].
  - intros data pre field fieldInfo post value Hval Htype Hpre.
    rewrite validateDataAgainstSchema_app, Hpre,
      validateDataAgainstSchema_cons.
    unfold validateField.
    change (assertMap (VMap fieldInfo)) with (Some fieldInfo).
    cbv beta iota zeta. rewrite Hval, Htype.
    destruct value; reflexivity.
Qed.

(** ** Numbers *)

(** X6. The numeric kinds are nested: a value that passes as [double]
    passes as [number], and a value that passes as [number] passes as
    [timestamp]; an integer passes as [number] and never as [double]. *)
Theorem numeric_kinds_are_nested :
  (forall (fieldName : string) (value : Value),
      validateFieldType fieldName value "double" = Nil ->
      validateFieldType fieldName value "number" = Nil)
  /\ (forall (fieldName : string) (value : Value),
         validateFieldType fieldName value "number" = Nil ->
         validateFieldType fieldName value "timestamp" = Nil)
  /\ (forall (fieldName : string) (value : Value),
         (exists i, value = VInt i \/ value = VInt32 i \/ value = VInt64 i) ->
         validateFieldType fieldName value "number" = Nil
         /\ validateFieldType fieldName value "double"
            = Error ("field '" ++ fieldName
                     ++ "' must be a double (floating-point)")).
Proof.
  split; [|split].
  - intros fieldName value. destruct value; simpl; try discriminate;
      reflexivity.
  - intros fieldName value. destruct value; simpl; try discriminate;
      reflexivity.
  - intros fieldName value [i [-> | [-> | ->]]]; split; reflexivity.
Qed.

(** ** Object fields *)

(** X7. Under the type [object] a value passes only when it is a
    [map[string]interface{}]: every other non-null value, a [bson.M]
    included, fails with [field 'f' must be an object], whether or not the
    node has a nested schema; and without a nested schema a map passes
    whatever it holds. *)
Theorem object_fields :
  (forall (data : Map) (field : string) (fieldInfo : Map) (value : Value)
          (continue : outcome),
      index fieldInfo "type" = VString "object" ->
      lookup data field = Some value ->
      isNil value = false ->
      assertMap value = None ->
      validateField data field (VMap fieldInfo) continue
      = Error ("field '" ++ field ++ "' must be an object"))
  /\ (forall (data : Map) (field : string) (fieldInfo object : Map)
             (continue : outcome),
         index fieldInfo "type" = VString "object" ->
         lookup data field = Some (VMap object) ->
         nestedSchema fieldInfo = None ->
         validateField data field (VMap fieldInfo) continue = continue).
Proof.
  split.
  - intros data field fieldInfo value continue Htype Hval Hnil Hmap.
    unfold validateField.
    change (assertMap (VMap fieldInfo)) with (Some fieldInfo).
    cbv beta iota zeta. rewrite Hval, Htype.
    destruct value; try discriminate; reflexivity.
  - intros data field fieldInfo object continue Htype Hval Hns.
    unfold validateField.
    change (assertMap (VMap fieldInfo)) with (Some fieldInfo).
    cbv beta iota zeta. rewrite Hval, Htype, Hns. reflexivity.
Qed.

(** ** The field an error names *)

Lemma validateFieldType_error_names_field (fieldName : string)
      (value : Value) (t msg : string) :
  validateFieldType fieldName value t = Error msg ->
  exists rest, msg = ("field '" ++ fieldName ++ rest)%string.
Proof.
  unfold validateFieldType, Errorf1. intros H.
  destruct (isNil value).
  - destruct (_ =? _)%string; [discriminate|].
    injection H as <-. eexists. reflexivity.
  - repeat match type of H with
           | context [if ?c then _ else _] => destruct c
           | context [match reflect.TypeOf value with _ => _ end] =>
               destruct (reflect.TypeOf value)
           | context [match assertString ?v with _ => _ end] =>
               destruct (assertString v)
           | context [match assertBool ?v with _ => _ end] =>
               destruct (assertBool v)
           | context [match assertMap ?v with _ => _ end] =>
               destruct (assertMap v)
           end;
      try discriminate;
      try (injection H as <-; eexists; reflexivity);
      destruct value; try discriminate;
      try (injection H as <-; eexists; reflexivity);
      match type of H with context [if ?c then _ else _] => destruct c end;
      try discriminate; injection H as <-; eexists; reflexivity.
Qed.


(** ** The layouts of a date *)

(** X9. The last of the six layouts is [time.RFC3339] again: a string is
    a valid date string exactly when one of the first five layouts parses
    it. *)
Theorem date_layouts_without_the_last :
  forall s : string,
    isValidISODateString time_Parse s =
    existsb (fun layout => time_Parse layout s)
      [ GoTime.RFC3339; GoTime.RFC3339Nano; "2006-01-02";
        "2006-01-02 15:04:05"; "2006-01-02T15:04:05" ].
Proof.
  intros s. unfold isValidISODateString, layouts, GoTime.RFC3339. simpl.
  destruct (time_Parse "2006-01-02T15:04:05Z07:00" s); [reflexivity|].
  repeat match goal with
         | |- context [time_Parse ?l s] => destruct (time_Parse l s)
         end; reflexivity.
Qed.

End ValidatorOrder.

(* ================================================================== *)
(** * The collections *)
(* ================================================================== *)

Lemma findProduct_ID (c : list Product) (id : string) (p : Product) :
  findProduct c id = Some p -> ID p = id /\ In p c.
Proof.
  unfold findProduct. intros H. apply find_some in H. destruct H as [Hin Heq].
  apply String.eqb_eq in Heq. split; assumption.
Qed.

Lemma findProduct_fresh (c : list Product) (id : string) :
  ~ In id (map ID c) -> findProduct c id = None.
Proof.
  induction c as [|p c IH]; simpl; [reflexivity|]. intros Hnot.
  destruct (String.eqb_spec (ID p) id) as [Heq|_]; [tauto|]. apply IH. tauto.
Qed.

Lemma findProduct_None (c : list Product) (id : string) :
  findProduct c id = None -> ~ In id (map ID c).
Proof.
  induction c as [|p c IH]; simpl; [tauto|].
  destruct (String.eqb_spec (ID p) id) as [Heq|Hne]; [discriminate|].
  intros H [Hp|Hin]; [contradiction | exact (IH H Hin)].
Qed.

Lemma findProduct_snoc (c : list Product) (p : Product) (id : string) :
  findProduct (c ++ [p]) id =
  match findProduct c id with
  | Some q => Some q
  | None => if String.eqb (ID p) id then Some p else None
  end.
Proof.
  induction c as [|q c IH]; simpl; [reflexivity|].
  destruct (String.eqb (ID q) id); [reflexivity | exact IH].
Qed.

Lemma updateProduct_missing (c : list Product) (req : UpdateProductRequest)
      (now : Z) :
  findProduct c (updID req) = None -> updateProduct c req now = (c, O).
Proof.
  induction c as [|p c IH]; simpl; [reflexivity|].
  destruct (String.eqb (ID p) (updID req)); [discriminate|].
  intros H. rewrite (IH H). reflexivity.
Qed.

Lemma updateProduct_found (c : list Product) (req : UpdateProductRequest)
      (now : Z) (p : Product) :
  findProduct c (updID req) = Some p ->
  exists c',
    updateProduct c req now = (c', 1%nat)
    /\ findProduct c' (updID req)
       = Some (mkProduct (updID req) (updName req) (updDescription req)
                         (updSchema req) (CreatedAt p) now)
    /\ map ID c' = map ID c
    /\ (forall id, id <> updID req -> findProduct c' id = findProduct c id).
Proof.
  induction c as [|q c IH]; simpl; [discriminate|].
  destruct (String.eqb_spec (ID q) (updID req)) as [Heq|Hne].
  - intros [= ->]. eexists. split; [reflexivity|]. simpl.
    rewrite Heq, String.eqb_refl. repeat split.
    intros id Hid. destruct (String.eqb_spec (updID req) id); [congruence|].
    reflexivity.
  - intros H. destruct (IH H) as (c' & -> & Hfind & Hids & Hother).
    eexists. split; [reflexivity|]. simpl.
    destruct (String.eqb_spec (ID q) (updID req)); [contradiction|].
    repeat split; [exact Hfind | rewrite Hids; reflexivity |].
    intros id Hid. rewrite (Hother id Hid). reflexivity.
Qed.

Lemma deleteProduct_missing (c : list Product) (id : string) :
  findProduct c id = None -> deleteProduct c id = (c, O).
Proof.
  induction c as [|p c IH]; simpl; [reflexivity|].
  destruct (String.eqb (ID p) id); [discriminate|].
  intros H. rewrite (IH H). reflexivity.
Qed.

Lemma deleteProduct_found (c : list Product) (id : string) (p : Product) :
  findProduct c id = Some p ->
  exists c',
    deleteProduct c id = (c', 1%nat)
    /\ (forall id', id' <> id -> findProduct c' id' = findProduct c id')
    /\ (NoDup (map ID c) ->
        findProduct c' id = None /\ NoDup (map ID c')).
Proof.
  induction c as [|q c IH]; simpl; [discriminate|].
  destruct (String.eqb_spec (ID q) id) as [Heq|Hne].
  - intros _. exists c. split; [reflexivity|]. split.
    + intros id' Hid. destruct (String.eqb_spec (ID q) id'); [congruence|].
      reflexivity.
    + intros Hnd. inversion Hnd as [|x l Hnot Hnd']; subst.
      split; [apply findProduct_fresh; exact Hnot | exact Hnd'].
  - intros H. destruct (IH H) as (c' & -> & Hother & Hnd).
    eexists. split; [reflexivity|]. split.
    + intros id' Hid. simpl. rewrite (Hother id' Hid). reflexivity.
    + intros Hnodup. inversion Hnodup as [|x l Hnot Hnd']; subst.
      destruct (Hnd Hnd') as [Hgone Hnd''].
      split.
      * simpl. destruct (String.eqb_spec (ID q) id); [contradiction|].
        exact Hgone.
      * simpl. constructor; [|exact Hnd''].
        intros Hin. apply Hnot.
        apply in_map_iff in Hin. destruct Hin as (r & Hr & Hin).
        destruct (String.eqb_spec (ID r) id) as [Hrid|Hrid].
        -- apply findProduct_None in Hgone. exfalso. apply Hgone.
           rewrite <- Hrid. apply in_map. exact Hin.
        -- assert (Hf : findProduct c' (ID r) <> None).
           { intros Hn. apply findProduct_None in Hn. apply Hn.
             apply in_map. exact Hin. }
           rewrite (Hother (ID r) Hrid) in Hf.
           destruct (findProduct c (ID r)) as [r'|] eqn:Er; [|congruence].
           apply findProduct_ID in Er. destruct Er as [Hid' Hin'].
           rewrite <- Hr, <- Hid'. apply in_map. exact Hin'.
Qed.

Lemma findLead_ID (c : list Lead) (id : string) (l : Lead) :
  findLead c id = Some l -> LeadID l = id /\ In l c.
Proof.
  unfold findLead. intros H. apply find_some in H. destruct H as [Hin Heq].
  apply String.eqb_eq in Heq. split; assumption.
Qed.

Lemma findLead_fresh (c : list Lead) (id : string) :
  ~ In id (map LeadID c) -> findLead c id = None.
Proof.
  induction c as [|l c IH]; simpl; [reflexivity|]. intros Hnot.
  destruct (String.eqb_spec (LeadID l) id) as [Heq|_]; [tauto|].
  apply IH. tauto.
Qed.

Lemma findLead_None (c : list Lead) (id : string) :
  findLead c id = None -> ~ In id (map LeadID c).
Proof.
  induction c as [|l c IH]; simpl; [tauto|].
  destruct (String.eqb_spec (LeadID l) id) as [Heq|Hne]; [discriminate|].
  intros H [Hp|Hin]; [contradiction | exact (IH H Hin)].
Qed.

Lemma insertLead_fresh (c c' : list Lead) (l : Lead) :
  insertLead c l = Some c' -> c' = c ++ [l] /\ ~ In (LeadID l) (map LeadID c).
Proof.
  unfold insertLead.
  destruct (existsb _ c) eqn:E; [discriminate|]. intros [= <-].
  split; [reflexivity|]. intros Hin.
  apply in_map_iff in Hin. destruct Hin as (l' & Hid & Hin).
  assert (existsb (fun l' => String.eqb (LeadID l') (LeadID l)) c = true).
  { apply existsb_exists. exists l'. split; [exact Hin|].
    apply String.eqb_eq. exact Hid. }
  congruence.
Qed.

Lemma updateLead_missing (c : list Lead) (id : string) (data : Map)
      (now : Z) :
  findLead c id = None -> updateLead c id data now = (c, O).
Proof.
  induction c as [|l c IH]; simpl; [reflexivity|].
  destruct (String.eqb (LeadID l) id); [discriminate|].
  intros H. rewrite (IH H). reflexivity.
Qed.

Lemma updateLead_found (c : list Lead) (id : string) (data : Map) (now : Z)
      (old : Lead) :
  findLead c id = Some old ->
  let new := mkLead id (ProductID old) data (LeadCreatedAt old) now in
  exists c',
    updateLead c id data now = (c', 1%nat)
    /\ findLead c' id = Some new
    /\ map LeadID c' = map LeadID c
    /\ (forall id', id' <> id -> findLead c' id' = findLead c id')
    /\ (forall l, In l c' -> l = new \/ In l c).
Proof.
  induction c as [|q c IH]; simpl; [discriminate|].
  destruct (String.eqb_spec (LeadID q) id) as [Heq|Hne].
  - intros [= ->]. eexists. split; [reflexivity|]. simpl.
    rewrite Heq, String.eqb_refl. repeat split.
    + intros id' Hid. destruct (String.eqb_spec id id'); [congruence|].
      reflexivity.
    + intros l [<-|Hin]; [left; reflexivity | right; right; exact Hin].
  - intros H. destruct (IH H) as (c' & -> & Hfind & Hids & Hother & Hin).
    eexists. split; [reflexivity|]. simpl.
    destruct (String.eqb_spec (LeadID q) id); [contradiction|].
    repeat split; [exact Hfind | rewrite Hids; reflexivity | |].
    + intros id' Hid. rewrite (Hother id' Hid). reflexivity.
    + intros l [<-|Hl]; [right; left; reflexivity|].
      destruct (Hin l Hl) as [->|Hc]; [left; reflexivity | right; right; exact Hc].
Qed.

Lemma deleteLead_missing (c : list Lead) (id : string) :
  findLead c id = None -> deleteLead c id = (c, O).
Proof.
  induction c as [|l c IH]; simpl; [reflexivity|].
  destruct (String.eqb (LeadID l) id); [discriminate|].
  intros H. rewrite (IH H). reflexivity.
Qed.

Lemma deleteLead_found (c : list Lead) (id : string) (l : Lead) :
  findLead c id = Some l ->
  exists c',
    deleteLead c id = (c', 1%nat)
    /\ (forall id', id' <> id -> findLead c' id' = findLead c id')
    /\ (NoDup (map LeadID c) ->
        findLead c' id = None /\ NoDup (map LeadID c')).
Proof.
  induction c as [|q c IH]; simpl; [discriminate|].
  destruct (String.eqb_spec (LeadID q) id) as [Heq|Hne].
  - intros _. exists c. split; [reflexivity|]. split.
    + intros id' Hid. destruct (String.eqb_spec (LeadID q) id'); [congruence|].
      reflexivity.
    + intros Hnd. inversion Hnd as [|x l0 Hnot Hnd']; subst.
      split; [apply findLead_fresh; exact Hnot | exact Hnd'].
  - intros H. destruct (IH H) as (c' & -> & Hother & Hnd).
    eexists. split; [reflexivity|]. split.
    + intros id' Hid. simpl. rewrite (Hother id' Hid). reflexivity.
    + intros Hnodup. inversion Hnodup as [|x l0 Hnot Hnd']; subst.
      destruct (Hnd Hnd') as [Hgone Hnd''].
      split.
      * simpl. destruct (String.eqb_spec (LeadID q) id); [contradiction|].
        exact Hgone.
      * simpl. constructor; [|exact Hnd''].
        intros Hin. apply Hnot.
        apply in_map_iff in Hin. destruct Hin as (r & Hr & Hin).
        destruct (String.eqb_spec (LeadID r) id) as [Hrid|Hrid].
        -- apply findLead_None in Hgone. exfalso. apply Hgone.
           rewrite <- Hrid. apply in_map. exact Hin.
        -- assert (Hf : findLead c' (LeadID r) <> None).
           { intros Hn. apply findLead_None in Hn. apply Hn.
             apply in_map. exact Hin. }
           rewrite (Hother (LeadID r) Hrid) in Hf.
           destruct (findLead c (LeadID r)) as [r'|] eqn:Er; [|congruence].
           apply findLead_ID in Er. destruct Er as [Hid' Hin'].
           rewrite <- Hr, <- Hid'. apply in_map. exact Hin'.
Qed.

Lemma deleteLead_incl (c : list Lead) (id : string) :
  incl (fst (deleteLead c id)) c.
Proof.
  induction c as [|l c IH]; simpl; [apply incl_refl|].
  destruct (String.eqb (LeadID l) id); simpl.
  - apply incl_tl, incl_refl.
  - destruct (deleteLead c id) as [c' n]. simpl in *.
    apply incl_cons; [left; reflexivity | apply incl_tl; exact IH].
Qed.

(* ================================================================== *)
(** * The handlers *)
(* ================================================================== *)



(** X11. [UpdateProduct] replaces name, description and schema of the
    product with the identifier of the request and sets its update time; it
    keeps the identifier and the creation time, leaves every other product
    and the list of identifiers as they were, and answers with the product
    as stored.  For an identifier that is not in the collection it answers
    not found and changes nothing. *)
Theorem update_product :
  forall (db : DB) (now : Z) (req : UpdateProductRequest),
    (forall old,
        findProduct (productCollection db) (updID req) = Some old ->
        let new :=
          mkProduct (updID req) (updName req) (updDescription req)
                    (updSchema req) (CreatedAt old) now in
        let db' := fst (UpdateProduct db now req) in
        snd (UpdateProduct db now req) = Response new
        /\ GetProduct db' (updID req) = Response new
        /\ map ID (productCollection db') = map ID (productCollection db)
        /\ (forall id, id <> updID req ->
                       GetProduct db' id = GetProduct db id))
    /\ (findProduct (productCollection db) (updID req) = None ->
        UpdateProduct db now req = (db, NotFound "product not found")).
Proof.
  intros db now req. split.
  - intros old Hold new db'. subst db'. unfold UpdateProduct.
    destruct (updateProduct_found _ req now _ Hold)
      as (c' & -> & Hfind & Hids & Hother).
    simpl. unfold GetProduct. simpl productCollection. rewrite Hfind.
    repeat split; [exact Hids|].
    intros id Hid. rewrite (Hother id Hid). reflexivity.
  - intros Hmissing. unfold UpdateProduct.
    rewrite (updateProduct_missing _ req now Hmissing). simpl.
    destruct db; reflexivity.
Qed.

Lemma update_product_witness :
  findProduct (productCollection contactsDB) "p1" = Some productContacts
  /\ snd (UpdateProduct contactsDB 9
            (mkUpdateProductRequest "p1" "People" "" schemaInterests))
     = Response (mkProduct "p1" "People" "" schemaInterests 1 9).
Proof.
  split; [reflexivity|].
  apply (proj1 (update_product contactsDB 9
                  (mkUpdateProductRequest "p1" "People" "" schemaInterests))
               productContacts).
  reflexivity.
Defined.

(** X12. With different identifiers in each collection, a delete removes
    the document: [DeleteProduct] of a product of the collection succeeds
    and [GetProduct] then answers not found, [DeleteLead] likewise, and
    every other document reads as before; a delete of an identifier that is
    not there answers not found and changes nothing. *)
Theorem deleted_documents_are_gone :
  forall db : DB,
    uniqueIDs db ->
    (forall id,
        let db' := fst (DeleteProduct db id) in
        (findProduct (productCollection db) id <> None ->
         snd (DeleteProduct db id) = Response tt
         /\ GetProduct db' id = NotFound "product not found"
         /\ (forall id', id' <> id -> GetProduct db' id' = GetProduct db id')
         /\ uniqueIDs db')
        /\ (findProduct (productCollection db) id = None ->
            DeleteProduct db id = (db, NotFound "product not found")))
    /\ (forall id,
           let db' := fst (DeleteLead db id) in
           (findLead (leadCollection db) id <> None ->
            snd (DeleteLead db id) = Response tt
            /\ GetLead db' id = NotFound "lead not found"
            /\ (forall id', id' <> id -> GetLead db' id' = GetLead db id')
            /\ uniqueIDs db')
           /\ (findLead (leadCollection db) id = None ->
               DeleteLead db id = (db, NotFound "lead not found"))).
Proof.
  intros db [Hp Hl]. split; intros id db'; subst db'; split.
  - intros Hfound.
    destruct (findProduct (productCollection db) id) as [p|] eqn:E;
      [|contradiction].
    unfold DeleteProduct.
    destruct (deleteProduct_found _ _ _ E) as (c' & -> & Hother & Hnd).
    destruct (Hnd Hp) as [Hgone Hnd']. simpl.
    unfold GetProduct, uniqueIDs. simpl. rewrite Hgone.
    repeat split; [|exact Hnd' | exact Hl].
    intros id' Hid. rewrite (Hother id' Hid). reflexivity.
  - intros Hmissing. unfold DeleteProduct.
    rewrite (deleteProduct_missing _ _ Hmissing). simpl.
    destruct db; reflexivity.
  - intros Hfound.
    destruct (findLead (leadCollection db) id) as [l|] eqn:E;
      [|contradiction].
    unfold DeleteLead.
    destruct (deleteLead_found _ _ _ E) as (c' & Hdel & Hother & Hnd).
    rewrite Hdel.
    destruct (Hnd Hl) as [Hgone Hnd']. simpl.
    unfold GetLead, uniqueIDs. simpl. rewrite Hgone.
    repeat split; [|exact Hp | exact Hnd'].
    intros id' Hid. rewrite (Hother id' Hid). reflexivity.
  - intros Hmissing. unfold DeleteLead.
    rewrite (deleteLead_missing _ _ Hmissing). simpl.
    destruct db; reflexivity.
Qed.

Lemma contactsDB_uniqueIDs : uniqueIDs contactsDB.
Proof.
  split; simpl; (constructor; [simpl; tauto | constructor]).
Qed.

Lemma deleted_documents_are_gone_witness :
  uniqueIDs contactsDB
  /\ findProduct (productCollection contactsDB) "p1" <> None
  /\ GetProduct (fst (DeleteProduct contactsDB "p1")) "p1"
     = NotFound "product not found".
Proof.
  split; [exact contactsDB_uniqueIDs|].
  assert (H : findProduct (productCollection contactsDB) "p1" <> None)
    by (simpl; discriminate).
  split; [exact H|].
  apply (proj1 (proj1 (deleted_documents_are_gone contactsDB
                         contactsDB_uniqueIDs) "p1")).
  exact H.
Defined.

Section LeadFacts.

Variable time_Parse : string -> string -> bool.
Variable strconv_ParseInt : string -> bool.

Local Abbreviation validate :=
  (validateDataAgainstSchema time_Parse strconv_ParseInt).
Local Abbreviation CreateLead := (CreateLead time_Parse strconv_ParseInt).
Local Abbreviation UpdateLead := (UpdateLead time_Parse strconv_ParseInt).
Local Abbreviation httpCreateLead :=
  (httpCreateLead time_Parse strconv_ParseInt).
Local Abbreviation httpUpdateLead :=
  (httpUpdateLead time_Parse strconv_ParseInt).

Lemma lead_is_stored_only_if_valid_aux (db : DB) (newID : string)
      (now1 now2 : Z) (req : CreateLeadRequest) :
  let db' := fst (CreateLead db newID now1 now2 req) in
  let r := snd (CreateLead db newID now1 now2 req) in
  productCollection db' = productCollection db
  /\ (forall lead,
         r = Response lead ->
         lead = mkLead newID (leadProductID req) (leadData req) now1 now2
         /\ leadCollection db' = leadCollection db ++ [lead]
         /\ exists product,
             findProduct (productCollection db) (leadProductID req)
             = Some product
             /\ validate (leadData req) (Schema product) = Nil)
  /\ ((forall lead, r <> Response lead) -> db' = db).
Proof.
  intros db' r. subst db' r. unfold CreateLead.
  destruct (findProduct (productCollection db) (leadProductID req))
    as [product|] eqn:Hp.
  - destruct (validate (leadData req) (Schema product)) as [|m|] eqn:Hv.
    + destruct (insertLead (leadCollection db) _) as [c|] eqn:Hins; simpl.
      * apply insertLead_fresh in Hins. destruct Hins as [-> _].
        split; [reflexivity|]. split.
        -- intros lead [= <-]. split; [reflexivity|]. split; [reflexivity|].
           exists product. split; [reflexivity | exact Hv].
        -- intros H. exfalso. eapply H. reflexivity.
      * split; [reflexivity|]. split; [discriminate | reflexivity].
    + simpl. split; [reflexivity|]. split; [discriminate | reflexivity].
    + simpl. split; [reflexivity|]. split; [discriminate | reflexivity].
  - simpl. split; [reflexivity|]. split; [discriminate | reflexivity].
Qed.

(** X13. [CreateLead] stores a lead only when the product of the request
    exists and its schema accepts the data: the lead it answers with is the
    one appended to the collection, built from the request.  When the
    product is missing it answers not found, when the validator returns an
    error it answers invalid argument with
    [data validation failed: <message>], and whenever it does not answer
    with a lead the database is left as it was. *)
Theorem lead_is_stored_only_if_valid :
  forall (db : DB) (newID : string) (now1 now2 : Z) (req : CreateLeadRequest),
    let db' := fst (CreateLead db newID now1 now2 req) in
    let r := snd (CreateLead db newID now1 now2 req) in
    productCollection db' = productCollection db
    /\ (forall lead,
           r = Response lead ->
           lead = mkLead newID (leadProductID req) (leadData req) now1 now2
           /\ leadCollection db' = leadCollection db ++ [lead]
           /\ exists product,
               findProduct (productCollection db) (leadProductID req)
               = Some product
               /\ validate (leadData req) (Schema product) = Nil)
    /\ ((forall lead, r <> Response lead) -> db' = db)
    /\ (findProduct (productCollection db) (leadProductID req) = None ->
        r = NotFound "product not found")
    /\ (forall product msg,
           findProduct (productCollection db) (leadProductID req)
           = Some product ->
           validate (leadData req) (Schema product) = Error msg ->
           r = InvalidArgument ("data validation failed: " ++ msg)).
Proof.
  intros db newID now1 now2 req db' r. subst db' r.
  unfold CreateLead.
  destruct (findProduct (productCollection db) (leadProductID req))
    as [product|] eqn:Hp.
  - destruct (validate (leadData req) (Schema product)) as [|m|] eqn:Hv.
    + destruct (insertLead (leadCollection db) _) as [c|] eqn:Hins; simpl.
      * apply insertLead_fresh in Hins. destruct Hins as [-> _].
        split; [reflexivity|]. split; [|split; [|split]].
        -- intros lead [= <-]. split; [reflexivity|]. split; [reflexivity|].
           exists product. split; [reflexivity | exact Hv].
        -- intros H. exfalso. eapply H. reflexivity.
        -- discriminate.
        -- intros product' msg [= <-] Hm. congruence.
      * split; [reflexivity|]. split; [discriminate|].
        split; [reflexivity|]. split; [discriminate|].
        intros product' msg [= <-] Hm. congruence.
    + simpl. split; [reflexivity|]. split; [discriminate|].
      split; [reflexivity|]. split; [discriminate|].
      intros product' msg [= <-] Hm. rewrite Hv in Hm. injection Hm as <-.
      reflexivity.
    + simpl. split; [reflexivity|]. split; [discriminate|].
      split; [reflexivity|]. split; [discriminate|].
      intros product' msg [= <-] Hm. congruence.
  - simpl. split; [reflexivity|]. split; [discriminate|].
    split; [reflexivity|]. split; [reflexivity|].
    intros product' msg Hm. discriminate Hm.
Qed.


(** X15. The writes of leads keep every stored lead valid: when every
    lead of the database refers to a product of the database whose schema
    accepts its data, this still holds after [CreateLead], [UpdateLead] and
    [DeleteLead], and after [CreateProduct]. *)
Theorem lead_writes_keep_leads_valid :
  forall db : DB,
    leadsValid validate db ->
    (forall newID now1 now2 req,
        leadsValid validate (fst (CreateLead db newID now1 now2 req)))
    /\ (forall now req, leadsValid validate (fst (UpdateLead db now req)))
    /\ (forall id, leadsValid validate (fst (DeleteLead db id)))
    /\ (forall newID now1 now2 req,
           leadsValid validate (fst (CreateProduct db newID now1 now2 req))).
Proof.
  intros db Hvalid. split; [|split; [|split]].
  - intros newID now1 now2 req.
    pose proof (lead_is_stored_only_if_valid_aux db newID now1 now2 req)
      as (Hprod & Hstored & Hsame).
    destruct (snd (CreateLead db newID now1 now2 req)) as [lead| | | |] eqn:Hr;
      try (rewrite Hsame by discriminate; exact Hvalid).
    destruct (Hstored lead eq_refl) as (Hlead & Hc & product & Hp & Hv).
    intros l Hl. rewrite Hprod. rewrite Hc in Hl.
    apply in_app_or in Hl. destruct Hl as [Hl|[<-|[]]].
    + exact (Hvalid l Hl).
    + exists product. rewrite Hlead. simpl. split; assumption.
  - intros now req. unfold UpdateLead.
    destruct (findLead (leadCollection db) (ulID req)) as [old|] eqn:Hl;
      [|exact Hvalid].
    destruct (findProduct (productCollection db) (ProductID old))
      as [product|] eqn:Hp; [|exact Hvalid].
    destruct (validate (ulData req) (Schema product)) eqn:Hv;
      try exact Hvalid.
    destruct (updateLead_found _ _ (ulData req) now _ Hl)
      as (c' & -> & _ & _ & _ & Hin).
    simpl. intros l Hlc. simpl in Hlc.
    destruct (Hin l Hlc) as [->|Hold]; [|exact (Hvalid l Hold)].
    exists product. simpl. split; assumption.
  - intros id l Hl. unfold DeleteLead in Hl.
    pose proof (deleteLead_incl (leadCollection db) id) as Hincl.
    destruct (deleteLead (leadCollection db) id) as [c n]. simpl in Hincl.
    assert (Hc : In l c).
    { destruct (Nat.eqb n 0); exact Hl. }
    unfold DeleteLead.
    destruct (Hvalid l (Hincl l Hc)) as (product & Hp & Hv).
    exists product. split; [|exact Hv].
    destruct (deleteLead (leadCollection db) id) as [c0 n0].
    destruct (Nat.eqb n0 0); exact Hp.
  - intros newID now1 now2 req l Hl. unfold CreateProduct in *.
    destruct (insertProduct (productCollection db) _) as [c|] eqn:Hins;
      [|exact (Hvalid l Hl)].
    unfold insertProduct in Hins. simpl ID in Hins.
    destruct (findProduct (productCollection db) newID); [discriminate|].
    injection Hins as <-. simpl in *.
    destruct (Hvalid l Hl) as (product & Hp & Hv).
    exists product. rewrite findProduct_snoc, Hp. split; [reflexivity|exact Hv].
Qed.



End LeadFacts.

(** X18. [UpdateProduct] and [DeleteProduct] leave the leads as they are:
    neither revalidates nor removes the leads of the product.  So they do
    not keep the leads valid: there is a database whose leads are all valid
    and which an update of a schema, or a delete of a product, turns into
    one with a lead that its product no longer accepts, or whose product is
    gone. *)
Theorem product_writes_leave_leads_as_they_are :
  forall (time_Parse : string -> string -> bool)
         (strconv_ParseInt : string -> bool),
    let validate := validateDataAgainstSchema time_Parse strconv_ParseInt in
    (forall db now req,
        leadCollection (fst (UpdateProduct db now req)) = leadCollection db)
    /\ (forall db id,
           leadCollection (fst (DeleteProduct db id)) = leadCollection db)
    /\ (exists db now req,
           leadsValid validate db
           /\ ~ leadsValid validate (fst (UpdateProduct db now req)))
    /\ (exists db id,
           leadsValid validate db
           /\ ~ leadsValid validate (fst (DeleteProduct db id))).
Proof.
  intros time_Parse strconv_ParseInt validate.
  assert (Hvalid : leadsValid validate contactsDB).
  { intros lead [<-|[]]. exists productContacts. split; reflexivity. }
  split; [|split; [|split]].
  - intros db now req. unfold UpdateProduct.
    destruct (updateProduct (productCollection db) req now) as [c n].
    destruct (Nat.eqb n 0); reflexivity.
  - intros db id. unfold DeleteProduct.
    destruct (deleteProduct (productCollection db) id) as [c n].
    destruct (Nat.eqb n 0); reflexivity.
  - exists contactsDB, 9,
      (mkUpdateProductRequest "p1" "Contacts" "" schemaUserInfo).
    split; [exact Hvalid|]. intros H.
    destruct (H leadJane) as (product & Hp & Hv); [left; reflexivity|].
    simpl in Hp. injection Hp as <-. discriminate Hv.
  - exists contactsDB, "p1". split; [exact Hvalid|]. intros H.
    destruct (H leadJane) as (product & Hp & _); [left; reflexivity|].
    discriminate Hp.
Qed.

Lemma NoDup_snoc (A : Type) (l : list A) (x : A) :
  NoDup l -> ~ In x l -> NoDup (l ++ [x]).
Proof.
  intros Hnd Hx. apply NoDup_app; [exact Hnd | repeat constructor; simpl; tauto |].
  intros a Ha [<-|[]]. contradiction.
Qed.


(* ================================================================== *)
(** * Listing *)
(* ================================================================== *)

Lemma int32_congruent (n n' : Z) :
  (n - n') mod 2 ^ 32 = 0 -> int32 n = int32 n'.
Proof.
  intros H. unfold int32.
  apply Z.mod_divide in H; [|lia]. destruct H as [k Hk].
  replace (n + 2 ^ 31) with (n' + 2 ^ 31 + k * 2 ^ 32) by lia.
  rewrite Z.mod_add by lia. reflexivity.
Qed.

Lemma int32_range (n : Z) : - 2 ^ 31 <= int32 n < 2 ^ 31.
Proof.
  unfold int32. pose proof (Z.mod_pos_bound (n + 2 ^ 31) (2 ^ 32)). lia.
Qed.

Lemma int32_multiple (n : Z) : n mod 2 ^ 32 = 0 -> int32 n = 0.
Proof.
  intros H. rewrite (int32_congruent n 0); [reflexivity|].
  rewrite Z.sub_0_r. exact H.
Qed.

Lemma findPage_incl (A : Type) (c page : list A) (limit skip : Z) :
  findPage c limit skip = Some page -> incl page c.
Proof.
  unfold findPage. destruct (skip <? 0); [discriminate|].
  intros [= <-]. intros x Hx.
  assert (Hs : In x (skipn (Z.to_nat skip) c)).
  { destruct (limit =? 0); [exact Hx|].
    rewrite <- (firstn_skipn (Z.to_nat (Z.abs limit))
                  (skipn (Z.to_nat skip) c)).
    apply in_or_app. left. exact Hx. }
  rewrite <- (firstn_skipn (Z.to_nat skip) c). apply in_or_app. right.
  exact Hs.
Qed.

Lemma firstn_then_next (A : Type) (n m : nat) (l : list A) :
  firstn n l ++ firstn m (skipn n l) = firstn (n + m) l.
Proof.
  revert l. induction n as [|n IH]; intros l; [reflexivity|].
  destruct l as [|x l]; simpl.
  - rewrite firstn_nil. reflexivity.
  - rewrite IH. reflexivity.
Qed.

Section Listing.

Variable strconv_Atoi : string -> option Z.

Local Abbreviation queryInt32 := (queryInt32 strconv_Atoi).
Local Abbreviation httpListProducts := (httpListProducts strconv_Atoi).
Local Abbreviation httpListLeads := (httpListLeads strconv_Atoi).

(** X20. The limit and offset of a listing are cut to 32 bits: two query
    values that are numbers congruent modulo 2^32 give the same answer, and
    a limit that is a multiple of 2^32, zero included, gives the answer of a
    request without a limit, the first ten documents.  The number given to
    the store is always within the range of an [int32]. *)
Theorem list_parameters_wrap_around :
  (forall (param : string) (default : Z),
      - 2 ^ 31 <= default < 2 ^ 31 ->
      - 2 ^ 31 <= queryInt32 param default < 2 ^ 31)
  /\ (forall (db : DB) (s s' other : string) (n n' : Z),
         s <> "" -> s' <> "" ->
         strconv_Atoi s = Some n -> strconv_Atoi s' = Some n' ->
         (n - n') mod 2 ^ 32 = 0 ->
         httpListProducts db s other = httpListProducts db s' other
         /\ httpListProducts db other s = httpListProducts db other s'
         /\ (forall productID,
                httpListLeads db productID s other
                = httpListLeads db productID s' other))
  /\ (forall (db : DB) (s offsetStr : string) (n : Z),
         strconv_Atoi s = Some n ->
         n mod 2 ^ 32 = 0 ->
         httpListProducts db s offsetStr = httpListProducts db "" offsetStr
         /\ (forall productID,
                httpListLeads db productID s offsetStr
                = httpListLeads db productID "" offsetStr)).
Proof.
  split; [|split].
  - intros param default Hd. unfold queryInt32.
    destruct (negb _); [|exact Hd].
    destruct (strconv_Atoi param); [apply int32_range | exact Hd].
  - intros db s s' other n n' Hs Hs' Hn Hn' Hmod.
    assert (Hq : forall d, queryInt32 s d = queryInt32 s' d).
    { intros d. unfold queryInt32. rewrite Hn, Hn'.
      destruct (String.eqb_spec s ""); [contradiction|].
      destruct (String.eqb_spec s' ""); [contradiction|].
      simpl. apply int32_congruent. exact Hmod. }
    unfold httpListProducts, httpListLeads. rewrite !Hq.
    repeat split.
  - intros db s offsetStr n Hn Hmod.
    assert (Hq : queryInt32 s 10 = 0 \/ queryInt32 s 10 = 10).
    { unfold queryInt32. destruct (negb _); [|right; reflexivity].
      rewrite Hn. left. apply int32_multiple. exact Hmod. }
    assert (Hd : queryInt32 "" 10 = 10) by reflexivity.
    unfold httpListProducts, httpListLeads, ListProducts, ListLeads.
    rewrite Hd. destruct Hq as [-> | ->]; split; reflexivity.
Qed.

End Listing.


(** X22. [ListLeads] with a product identifier answers only with leads of
    that product, all of them leads of the collection, and its total is the
    number of all the leads of the product, not that of the page; without a
    product identifier the total is the number of all leads. *)
Theorem ListLeads_filters_by_product :
  forall (db : DB) (productID : string) (limit offset : Z)
         (r : ListLeadsResponse),
    ListLeads db productID limit offset = Response r ->
    incl (Leads r) (leadCollection db)
    /\ (productID <> "" ->
        Forall (fun l => ProductID l = productID) (Leads r)
        /\ LeadsTotal r
           = int32 (Z.of_nat
                      (List.length
                         (filter (fun l => String.eqb (ProductID l) productID)
                                 (leadCollection db)))))
    /\ (productID = "" ->
        LeadsTotal r = int32 (Z.of_nat (List.length (leadCollection db)))).
Proof.
  intros db productID limit offset r. unfold ListLeads.
  destruct (String.eqb_spec productID "") as [Hempty|Hne].
  - destruct (findPage (leadCollection db) _ offset) as [page|] eqn:Hpage;
      [|discriminate].
    intros [= <-]. simpl. split; [exact (findPage_incl _ _ _ _ _ Hpage)|].
    split; [contradiction | reflexivity].
  - destruct (findPage (filter _ (leadCollection db)) _ offset)
      as [page|] eqn:Hpage; [|discriminate].
    intros [= <-]. simpl. apply findPage_incl in Hpage.
    split; [|split; [|contradiction]].
    + intros l Hl. apply Hpage in Hl. apply filter_In in Hl. tauto.
    + intros _. split; [|reflexivity].
      apply Forall_forall. intros l Hl. apply Hpage in Hl.
      apply filter_In in Hl. apply String.eqb_eq. tauto.
Qed.

(* ================================================================== *)
(** * The properties at the data of the documentation *)
(* ================================================================== *)

Lemma acceptance_ignores_iteration_order_witness :
  Permutation schemaNameAge schemaAgeName
  /\ goValidate dataJane25 schemaNameAge = Nil
  /\ goValidate dataJane25 schemaAgeName = Nil.
Proof.
  assert (Hperm : Permutation schemaNameAge schemaAgeName)
    by apply perm_swap.
  split; [exact Hperm|]. split; [reflexivity|].
  apply (proj2 (acceptance_ignores_iteration_order
                  GoTime.Parse GoStrconv.ParseInt)
               dataJane25 schemaNameAge schemaAgeName Hperm).
  reflexivity.
Defined.

Lemma first_failing_entry_is_reported_witness :
  goValidate dataAge25 ([ageField] ++ nameField :: [])
  = Error "required field 'name' is missing".
Proof.
  apply (first_failing_entry_is_reported GoTime.Parse GoStrconv.ParseInt).
  exists [ageField], "name", (snd nameField), [].
  repeat split.
Defined.

Lemma empty_data_object_witness :
  goValidate [] schemaInterests = Nil.
Proof.
  apply (proj1 (empty_data_object GoTime.Parse GoStrconv.ParseInt
                  schemaInterests)).
  repeat constructor. simpl. intros fieldInfo [= <-]. reflexivity.
Defined.

Lemma unknown_type_accepts_every_value_witness :
  ~ In "integer" knownTypes
  /\ goValidateFieldType "count" (VString "three") "integer" = Nil.
Proof.
  assert (H : ~ In "integer" knownTypes).
  { simpl. intros H.
    repeat (destruct H as [H|H]; [discriminate H|]). exact H. }
  split; [exact H|].
  apply (proj1 (unknown_type_accepts_every_value
                  GoTime.Parse GoStrconv.ParseInt)); [exact H | reflexivity].
Defined.

Lemma explicit_null_witness :
  goValidate [("name", VString "Jane"); ("age", VNil)]
    ([nameField] ++ ageField :: [])
  = Error "field 'age' must not be null".
Proof.
  apply (proj1 (explicit_null GoTime.Parse GoStrconv.ParseInt));
    [reflexivity | simpl; discriminate | reflexivity].
Defined.

Lemma numeric_kinds_are_nested_witness :
  goValidateFieldType "age" (VFloat64 float64_25) "double" = Nil
  /\ goValidateFieldType "age" (VFloat64 float64_25) "number" = Nil.
Proof.
  split; [reflexivity|].
  apply (proj1 (numeric_kinds_are_nested GoTime.Parse GoStrconv.ParseInt)).
  reflexivity.
Defined.

Lemma object_fields_witness :
  validateField GoTime.Parse GoStrconv.ParseInt
    [("user_info", VBsonM [("first_name", VString "Jane")])] "user_info"
    (snd (hd ("", VNil) schemaUserInfo)) Nil
  = Error "field 'user_info' must be an object".
Proof.
  apply (proj1 (object_fields GoTime.Parse GoStrconv.ParseInt))
    with (value := VBsonM [("first_name", VString "Jane")]);
    reflexivity.
Defined.


Lemma lead_is_stored_only_if_valid_witness :
  snd (goCreateLead contactsDB "l2" 5 5
         (mkCreateLeadRequest "p1" dataAge25))
  = InvalidArgument
      "data validation failed: required field 'name' is missing".
Proof.
  apply (proj2 (proj2 (proj2 (proj2
           (lead_is_stored_only_if_valid GoTime.Parse GoStrconv.ParseInt
              contactsDB "l2" 5 5 (mkCreateLeadRequest "p1" dataAge25))))))
    with (product := productContacts); reflexivity.
Defined.


Lemma contactsDB_leadsValid : leadsValid goValidate contactsDB.
Proof.
  intros lead [<-|[]]. exists productContacts. split; reflexivity.
Qed.

Lemma lead_writes_keep_leads_valid_witness :
  leadsValid goValidate contactsDB
  /\ leadsValid goValidate
       (fst (goCreateLead contactsDB "l2" 5 5
               (mkCreateLeadRequest "p1" dataJane25))).
Proof.
  split; [exact contactsDB_leadsValid|].
  apply (proj1 (lead_writes_keep_leads_valid GoTime.Parse GoStrconv.ParseInt
                  contactsDB contactsDB_leadsValid)).
Defined.




Lemma list_parameters_wrap_around_witness :
  goAtoi "4294967306" = Some 4294967306
  /\ goAtoi "10" = Some 10
  /\ (4294967306 - 10) mod 2 ^ 32 = 0
  /\ httpListProducts goAtoi contactsDB "4294967306" "0"
     = httpListProducts goAtoi contactsDB "10" "0".
Proof.
  repeat (split; [reflexivity|]).
  apply (proj1 (proj2 (list_parameters_wrap_around goAtoi))
               contactsDB "4294967306" "10" "0" 4294967306 10);
    [discriminate | discriminate | reflexivity | reflexivity | reflexivity].
Defined.


Lemma ListLeads_filters_by_product_witness :
  ListLeads contactsDB "p1" 10 0
  = Response (mkListLeadsResponse [leadJane] 1)
  /\ incl [leadJane] (leadCollection contactsDB).
Proof.
  split; [reflexivity|].
  apply (proj1 (ListLeads_filters_by_product contactsDB "p1" 10 0
                  (mkListLeadsResponse [leadJane] 1) eq_refl)).
Defined.
